(** * Camera viewpoint navigation of src/App.jsx

    A shallow embedding of the viewpoint navigation and camera transition
    code of the [App] component: the viewpoint catalog, the single-flight
    transition [animateToViewpoint] with its per-frame callback [animate],
    the wheel handler with its [setTimeout] debounce, and the custom pose
    entry point [window.setCustomViewpoint].

    JavaScript numbers are modelled as exact rationals ([Q]): positions,
    durations, progress and easing values are computed without rounding.
    Millisecond clock readings ([Date.now()]) and the viewpoint index are
    integers ([Z]); [%] on them is the truncating remainder [Z.rem].
    Where rounding decides a property, the arithmetic of a tick is also
    given on IEEE binary64 numbers (module [Double]). Statements about
    poses are either about exact arithmetic and say so, or hold to within
    a stated tolerance. *)

From Stdlib Require Import ZArith QArith Qminmax Lqa Lia List Bool String.
From Stdlib Require Import Qround Qabs.
From Corelib Require Import PrimFloat.
Set Warnings "-inexact-float".
Import ListNotations.
Local Open Scope Z_scope.

(** ** Numbers *)

(** [a < b] on JavaScript numbers, as a boolean. *)
Definition Qltb (a b : Q) : bool :=
  match (a ?= b)%Q with
  | Lt => true
  | _ => false
  end.

(** ** three.js vectors *)

Module THREE.

(** [THREE.Vector3]: three number components. *)
Record Vector3 : Type := mkVector3 { x : Q; y : Q; z : Q }.

(** [Vector3.lerpVectors(v1, v2, alpha)]: each component is
    [v1 + (v2 - v1) * alpha]. *)
Definition lerpVectors (v1 v2 : Vector3) (alpha : Q) : Vector3 :=
  {| x := x v1 + (x v2 - x v1) * alpha;
     y := y v1 + (y v2 - y v1) * alpha;
     z := z v1 + (z v2 - z v1) * alpha |}%Q.

(** Numerical equality of two vectors, component by component. *)
Definition eqv (a b : Vector3) : Prop :=
  (x a == x b /\ y a == y b /\ z a == z b)%Q.

(** The same, as a test. *)
Definition eqvb (a b : Vector3) : bool :=
  Qeq_bool (x a) (x b) && Qeq_bool (y a) (y b) && Qeq_bool (z a) (z b).

End THREE.

Import THREE(Vector3).
Infix "=v=" := THREE.eqv (at level 70, no associativity).

(** ** Easing *)

(** The expression bound to [ease] (App.jsx line 82):
    [progress < 0.5 ? 2 * progress * progress
                    : 1 - Math.pow(-2 * progress + 2, 3) / 2]. *)
Definition ease (progress : Q) : Q :=
  (if Qltb progress (1 # 2)
   then 2 * progress * progress
   else 1 - Qpower (-2 * progress + 2) 3 / 2)%Q.


(** ** Data model *)

(** An entry of the [viewpoints] array: [{ position, lookAt, name }], the
    two poses being plain [{x, y, z}] objects. *)
Record Viewpoint : Type := mkViewpoint {
  position : Vector3;
  lookAt : Vector3;
  name : string
}.

(** The variables captured by one [animate] closure created inside
    [animateToViewpoint]: its three parameters and the three constants
    read when the transition starts. *)
Record Animation : Type := mkAnimation {
  targetPosition : Vector3;
  targetLookAt : Vector3;
  duration : Q;
  startPosition : Vector3;
  startLookAt : Vector3;
  startTime : Z
}.

(** The timer armed by the wheel handler: when it is due, and the
    [deltaY] of the wheel event its callback has captured. *)
Record Timeout : Type := mkTimeout {
  deadline : Z;
  deltaY : Q
}.

(** Everything the navigation code reads or writes. *)
Record State : Type := mkState {
  now : Z;                          (* Date.now() *)
  currentViewpoint : Z;             (* useState(0) *)
  camera_position : Vector3;        (* camera.position *)
  controls_target : Vector3;        (* controls.target *)
  isAnimating : bool;               (* let isAnimating *)
  isEditingRef : bool;              (* isEditingRef.current *)
  animationFrames : list Animation; (* animate closures handed to
                                       requestAnimationFrame *)
  scrollTimeout : option Timeout    (* the timer behind scrollTimeout *)
}.

Definition set_now (t : Z) (s : State) : State :=
  mkState t (currentViewpoint s) (camera_position s) (controls_target s)
    (isAnimating s) (isEditingRef s) (animationFrames s) (scrollTimeout s).

Definition set_currentViewpoint (i : Z) (s : State) : State :=
  mkState (now s) i (camera_position s) (controls_target s)
    (isAnimating s) (isEditingRef s) (animationFrames s) (scrollTimeout s).

Definition set_camera_position (v : Vector3) (s : State) : State :=
  mkState (now s) (currentViewpoint s) v (controls_target s)
    (isAnimating s) (isEditingRef s) (animationFrames s) (scrollTimeout s).

Definition set_controls_target (v : Vector3) (s : State) : State :=
  mkState (now s) (currentViewpoint s) (camera_position s) v
    (isAnimating s) (isEditingRef s) (animationFrames s) (scrollTimeout s).

Definition set_isAnimating (b : bool) (s : State) : State :=
  mkState (now s) (currentViewpoint s) (camera_position s) (controls_target s)
    b (isEditingRef s) (animationFrames s) (scrollTimeout s).

Definition set_isEditingRef (b : bool) (s : State) : State :=
  mkState (now s) (currentViewpoint s) (camera_position s) (controls_target s)
    (isAnimating s) b (animationFrames s) (scrollTimeout s).

Definition set_animationFrames (l : list Animation) (s : State) : State :=
  mkState (now s) (currentViewpoint s) (camera_position s) (controls_target s)
    (isAnimating s) (isEditingRef s) l (scrollTimeout s).

Definition set_scrollTimeout (o : option Timeout) (s : State) : State :=
  mkState (now s) (currentViewpoint s) (camera_position s) (controls_target s)
    (isAnimating s) (isEditingRef s) (animationFrames s) o.

(** ** The transition *)

(** [controls.update()] of three.js' OrbitControls. With no drag in
    progress it re-derives the camera position from the orbit offset it
    has just read from it; the model takes position and target as staying
    where they are. The library goes through spherical coordinates, so in
    the browser the position it writes back can differ from the one it
    read by rounding, and by more when the camera is straight above or
    below the target. *)
Definition controls_update (s : State) : State := s.

(** [requestAnimationFrame(animate)]: the closure is run at the next frame. *)
Definition requestAnimationFrame (a : Animation) (s : State) : State :=
  set_animationFrames (animationFrames s ++ [a]) s.

(** [Math.min(elapsed / duration, 1)] with [elapsed = Date.now() - startTime],
    the [progress] of the closure [a] at clock reading [t]. Every call in
    the component leaves [duration] at its default; for a [duration] of 0,
    where JavaScript divides to [NaN] or [Infinity], nothing is claimed. *)
Definition progress (a : Animation) (t : Z) : Q :=
  let elapsed := t - startTime a in
  Qmin (inject_Z elapsed / duration a) 1.

(** The inner [animate] of [animateToViewpoint] (App.jsx lines 79-93). *)
Definition animate (a : Animation) (s : State) : State :=
  let progress := progress a (now s) in
  let ease := ease progress in
  let s := set_camera_position
             (THREE.lerpVectors (startPosition a) (targetPosition a) ease) s in
  let s := set_controls_target
             (THREE.lerpVectors (startLookAt a) (targetLookAt a) ease) s in
  let s := controls_update s in
  if Qltb progress 1 then requestAnimationFrame a s
  else set_isEditingRef false (set_isAnimating false s).

(** [animateToViewpoint(targetPosition, targetLookAt, duration)]
    (App.jsx lines 70-96). A handler runs at one clock reading: the
    [Date.now()] that gives [startTime] and the one of the first tick
    return the same value. *)
Definition animateToViewpoint
    (targetPosition targetLookAt : Vector3) (duration : Q) (s : State) : State :=
  if isAnimating s then s
  else
    let s := set_isEditingRef true s in
    let s := set_isAnimating true s in
    let a := {| targetPosition := targetPosition;
                targetLookAt := targetLookAt;
                duration := duration;
                startPosition := camera_position s;
                startLookAt := controls_target s;
                startTime := now s |} in
    animate a s.

(** The default value of the [duration] parameter. *)
Definition default_duration : Q := 2000.

(** [window.setCustomViewpoint(pos, look)] (App.jsx lines 108-110). *)
Definition setCustomViewpoint (pos look : Vector3) (s : State) : State :=
  animateToViewpoint
    (THREE.mkVector3 (THREE.x pos) (THREE.y pos) (THREE.z pos))
    (THREE.mkVector3 (THREE.x look) (THREE.y look) (THREE.z look))
    default_duration s.

(** [handleCustomPosition] (App.jsx lines 203-206), with the form fields
    [customPosition] and [customLookAt] as arguments. *)
Definition handleCustomPosition (customPosition customLookAt : Vector3)
    (s : State) : State :=
  setCustomViewpoint customPosition customLookAt (set_isEditingRef true s).

(** The wheel listener (App.jsx lines 122-133): [clearTimeout] of the
    pending timer, then [setTimeout(..., 100)] with the event captured. *)
Definition handleWheel (event_deltaY : Q) (s : State) : State :=
  set_scrollTimeout
    (Some {| deadline := now s + 100; deltaY := event_deltaY |}) s.

(** At most one transition is in flight: the closures waiting for the
    next frame are the one of the active transition, or none. *)
Definition single_flight (s : State) : Prop :=
  if isAnimating s
  then exists a, animationFrames s = [a] /\ duration a = default_duration
  else animationFrames s = [].

(** ** Navigation over a catalog *)

(** The events the page delivers to the component. *)
Inductive Event : Type :=
| Wheel (event_deltaY : Q)                          (* a "wheel" event *)
| AnimationFrame                                    (* a display frame *)
| ApplyPosition (customPosition customLookAt : Vector3) (* the Apply button *)
| Idle.                                             (* time passes *)

Section Navigation.

(** The [viewpoints] array. *)
Variable viewpoints : list Viewpoint.

(** [viewpoints.length]. *)
Definition viewpoints_length : Z := Z.of_nat (List.length viewpoints).

(** [viewpoints[index]]; [None] stands for [undefined]. *)
Definition at_index (index : Z) : option Viewpoint :=
  if index <? 0 then None else nth_error viewpoints (Z.to_nat index).

(** [index] is one of [0 .. viewpoints.length - 1]. *)
Definition index_in_range (index : Z) : Prop :=
  0 <= index < viewpoints_length.

(** The two index computations of the wheel handler
    (App.jsx line 128). *)
Definition next_index (prev : Z) : Z := Z.rem (prev + 1) viewpoints_length.
Definition prev_index (prev : Z) : Z :=
  Z.rem (prev - 1 + viewpoints_length) viewpoints_length.

(** [event.deltaY > 0 ? (prev + 1) % length
                      : (prev - 1 + length) % length]. *)
Definition next_viewpoint (event_deltaY : Q) (prev : Z) : Z :=
  if Qltb 0 event_deltaY then next_index prev else prev_index prev.

(** [setViewpoint(index)] (App.jsx lines 99-105). Reading [.position]
    of [undefined] throws a TypeError: [None]. *)
Definition setViewpoint (index : Z) (s : State) : option State :=
  match at_index index with
  | Some vp =>
      Some (animateToViewpoint
              (THREE.mkVector3 (THREE.x (position vp)) (THREE.y (position vp))
                 (THREE.z (position vp)))
              (THREE.mkVector3 (THREE.x (lookAt vp)) (THREE.y (lookAt vp))
                 (THREE.z (lookAt vp)))
              default_duration s)
  | None => None
  end.

(** The callback given to [setTimeout] (App.jsx lines 125-132):
    [setCurrentViewpoint] with an updater that computes the next index,
    calls [setViewpoint] on it and returns it. *)
Definition scroll_callback (event_deltaY : Q) (s : State) : option State :=
  let prev := currentViewpoint s in
  let next := next_viewpoint event_deltaY prev in
  match setViewpoint next s with
  | Some s' => Some (set_currentViewpoint next s')
  | None => None
  end.

(** The effect body up to the wheel listener, run at clock reading [t]:
    [useState(0)], [isAnimating = false], the camera and the orbit
    target put on [viewpoints[0]] (App.jsx lines 112-116). *)
Definition init (t : Z) : option State :=
  match at_index 0 with
  | Some initial =>
      Some (controls_update
              {| now := t;
                 currentViewpoint := 0;
                 camera_position :=
                   THREE.mkVector3 (THREE.x (position initial))
                     (THREE.y (position initial)) (THREE.z (position initial));
                 controls_target :=
                   THREE.mkVector3 (THREE.x (lookAt initial))
                     (THREE.y (lookAt initial)) (THREE.z (lookAt initial));
                 isAnimating := false;
                 isEditingRef := false;
                 animationFrames := [];
                 scrollTimeout := None |})
  | None => None
  end.

(** *** The event loop *)

(** The [deltaY] captured by the pending timer, when it is due at [t]. *)
Definition due (t : Z) (s : State) : option Q :=
  match scrollTimeout s with
  | Some tm => if deadline tm <=? t then Some (deltaY tm) else None
  | None => None
  end.

(** Run the timer callback if the timer is due. *)
Definition run_timers (s : State) : option State :=
  match due (now s) s with
  | Some dy => scroll_callback dy (set_scrollTimeout None s)
  | None => Some s
  end.

(** A display frame: the closures registered so far are run once each;
    what they register is kept for the next frame. *)
Definition animationFrame (s : State) : State :=
  fold_left (fun acc a => animate a acc) (animationFrames s)
    (set_animationFrames [] s).

Definition handle (e : Event) (s : State) : State :=
  match e with
  | Wheel dy => handleWheel dy s
  | AnimationFrame => animationFrame s
  | ApplyPosition p l => handleCustomPosition p l s
  | Idle => s
  end.

(** One event delivered at clock reading [t]: a timer that is due has
    run before the event's handler does. *)
Definition step (te : Z * Event) (s : State) : option State :=
  match run_timers (set_now (fst te) s) with
  | Some s' => Some (handle (snd te) s')
  | None => None
  end.

Fixpoint run (trace : list (Z * Event)) (s : State) : option State :=
  match trace with
  | [] => Some s
  | te :: trace' =>
      match step te s with
      | Some s' => run trace' s'
      | None => None
      end
  end.

(** The timer callbacks that run along a trace: for each, the clock
    reading and the [deltaY] it has captured. *)
Fixpoint intents (trace : list (Z * Event)) (s : State) : list (Z * Q) :=
  match trace with
  | [] => []
  | te :: trace' =>
      match due (fst te) (set_now (fst te) s) with
      | Some dy => [(fst te, dy)]
      | None => []
      end ++
      match step te s with
      | Some s' => intents trace' s'
      | None => []
      end
  end.

End Navigation.

(** ** The two catalogs *)

Definition v3 (a b c : Z) : Vector3 :=
  THREE.mkVector3 (inject_Z a) (inject_Z b) (inject_Z c).

Module App.
(** [viewpoints] of src/App.jsx (lines 23-33). *)
Definition viewpoints : list Viewpoint :=
  [ mkViewpoint (v3 52 (-7) 5) (v3 43 (-3) 16) "City Overview";
    mkViewpoint (v3 59 (-8) (-9)) (v3 59 4 (-40)) "Tall Building";
    mkViewpoint (v3 (-10) 2 5) (v3 0 2 0) "Street Level";
    mkViewpoint (v3 15 8 (-10)) (v3 0 5 0) "Corner View";
    mkViewpoint (v3 0 5 15) (v3 0 0 0) "Central Plaza";
    mkViewpoint (v3 (-15) 12 0) (v3 0 5 0) "Side Angle" ].
End App.

Module Earlier.
(** [viewpoints] of the earlier revision of the component
    (lines 14-29 there). That revision has no [isEditingRef], and its
    render loop copies the camera pose into the form fields; the
    transition and the wheel handler are those of App.jsx. *)
Definition viewpoints : list Viewpoint :=
  [ mkViewpoint (v3 0 30 0) (v3 0 0 0) "City Overview";
    mkViewpoint (v3 8 15 8) (v3 5 10 5) "Tall Building";
    mkViewpoint (v3 (-10) 2 5) (v3 0 2 0) "Street Level";
    mkViewpoint (v3 15 8 (-10)) (v3 0 5 0) "Corner View";
    mkViewpoint (v3 0 5 15) (v3 0 0 0) "Central Plaza";
    mkViewpoint (v3 (-15) 12 0) (v3 0 5 0) "Side Angle" ].
End Earlier.

(** ** Traces *)

(** The component mounted at clock reading [t] and then fed a trace. *)
Definition boot (viewpoints : list Viewpoint) (t : Z)
    (trace : list (Z * Event)) : option State :=
  match init viewpoints t with
  | Some s => run viewpoints trace s
  | None => None
  end.

(** One scroll gesture and the transition it starts, seen to its end: a
    wheel event at [t], the debounce timer found due at [t + 100], a frame
    in the middle of the 2000 ms transition and one at its end. *)
Definition advance (t : Z) (event_deltaY : Q) : list (Z * Event) :=
  [ (t, Wheel event_deltaY); (t + 100, Idle);
    (t + 1100, AnimationFrame); (t + 2100, AnimationFrame) ].

(** Five such gestures, scrolling down, 3000 ms apart. *)
Definition five_advances : list (Z * Event) :=
  advance 0 1 ++ advance 3000 1 ++ advance 6000 1 ++ advance 9000 1
    ++ advance 12000 1.

(** Wheel events given by their clock readings and their [deltaY]. *)
Definition wheel_events (burst : list (Z * Q)) : list (Z * Event) :=
  map (fun e => (fst e, Wheel (snd e))) burst.

(** Every event of [burst] comes less than 100 ms after the one before
    it, the first one less than 100 ms after [t]. *)
Fixpoint within_100ms (t : Z) (burst : list (Z * Q)) : Prop :=
  match burst with
  | [] => True
  | e :: burst' => t <= fst e < t + 100 /\ within_100ms (fst e) burst'
  end.

(** The state a wheel event at [t] leaves behind when no timer was due:
    the clock at [t] and the timer set for [t + 100] with the event's
    [deltaY]. *)
Definition armed (t : Z) (event_deltaY : Q) (s : State) : State :=
  handleWheel event_deltaY (set_now t s).

(** Two scroll gestures whose timers are found due at 0 and at 500, the
    component being mounted at -100. *)
Definition two_requests_500ms_apart : list (Z * Event) :=
  [ (-100, Wheel 1); (0, Idle); (400, Wheel 1); (500, Idle) ].

(** The component of App.jsx just mounted at clock reading 0. *)
Definition mounted : State :=
  {| now := 0;
     currentViewpoint := 0;
     camera_position := v3 52 (-7) 5;
     controls_target := v3 43 (-3) 16;
     isAnimating := false;
     isEditingRef := false;
     animationFrames := [];
     scrollTimeout := None |}.

(** The same with a transition to a custom pose under way. *)
Definition in_flight : State :=
  handleCustomPosition (v3 1 2 3) (v3 0 0 0) mounted.

(** ** The rest of the component *)

(** The counter of the overlay (App.jsx line 223):
    [Viewpoint {currentViewpoint + 1}/{viewpoints.length}]. *)
Definition viewpoint_counter (viewpoints : list Viewpoint) (s : State)
    : Z * Z :=
  (currentViewpoint s + 1, viewpoints_length viewpoints).

(** The name under it (App.jsx line 225):
    [viewpoints[currentViewpoint]?.name]; [None] stands for [undefined],
    which renders as nothing. *)
Definition viewpoint_name (viewpoints : list Viewpoint) (s : State)
    : option string :=
  option_map name (at_index viewpoints (currentViewpoint s)).




(** Each component of [a] is within [eps] of that component of [b]. *)
Definition near (eps : Q) (a b : Vector3) : Prop :=
  (Qabs (THREE.x a - THREE.x b) <= eps /\
   Qabs (THREE.y a - THREE.y b) <= eps /\
   Qabs (THREE.z a - THREE.z b) <= eps)%Q.

(** The same, as a test. *)
Definition nearb (eps : Q) (a b : Vector3) : bool :=
  Qle_bool (Qabs (THREE.x a - THREE.x b)) eps
  && Qle_bool (Qabs (THREE.y a - THREE.y b)) eps
  && Qle_bool (Qabs (THREE.z a - THREE.z b)) eps.

(** No transition, no registered closure and no timer. *)
Definition quiet (s : State) : Prop :=
  isAnimating s = false /\ animationFrames s = [] /\ scrollTimeout s = None.

(** A sequence of scroll gestures, each seen to the end of its
    transition as in [advance]. *)
Definition gestures (l : list (Z * Q)) : list (Z * Event) :=
  flat_map (fun g => advance (fst g) (snd g)) l.

(** The index after the timer callbacks of the [deltaY]s of [l], in
    order. *)
Definition index_after (viewpoints : list Viewpoint) (l : list (Z * Q))
    (i : Z) : Z :=
  fold_left (fun acc g => next_viewpoint viewpoints (snd g) acc) l i.

(** ** The tick in double precision *)

(** The arithmetic of one coordinate of a tick on IEEE binary64 numbers,
    the numbers JavaScript computes with: the same expressions as
    [progress], [ease] and [THREE.lerpVectors], each operation rounded. *)
Module Double.


(** [Math.min(a, b)] on two numbers that are not [NaN]. *)
Definition min (a b : float) : float := if (a <? b)%float then a else b.

(** [Math.min(elapsed / duration, 1)]. *)
Definition progress (elapsed duration : float) : float :=
  min (elapsed / duration)%float 1%float.

(** [Math.pow(v, 3)] by two multiplications; at 0 and at 1, the two
    arguments it gets below, every implementation returns the argument. *)
Definition pow3 (v : float) : float := (v * v * v)%float.

(** The expression bound to [ease]. *)
Definition ease (p : float) : float :=
  if (p <? 0.5)%float then (2 * p * p)%float
  else (1 - pow3 (-2 * p + 2) / 2)%float.


End Double.

(** * Properties *)

(** ** Numbers, vectors and easing *)

Lemma Qltb_true (a b : Q) : Qltb a b = true <-> (a < b)%Q.
Proof.
  unfold Qltb. destruct (Qcompare_spec a b) as [E | L | G]; split;
    try congruence; intros H; try exact L; exfalso; lra.
Qed.

Lemma Qltb_false (a b : Q) : Qltb a b = false <-> (b <= a)%Q.
Proof.
  unfold Qltb. destruct (Qcompare_spec a b) as [E | L | G]; split;
    try congruence; intros H; try lra.
Qed.

Lemma eqv_refl (a : Vector3) : a =v= a.
Proof. repeat split; reflexivity. Qed.

Lemma eqvb_eqv (a b : Vector3) : THREE.eqvb a b = true <-> a =v= b.
Proof.
  unfold THREE.eqvb, THREE.eqv.
  rewrite !andb_true_iff, !Qeq_bool_iff. tauto.
Qed.



Lemma Qpower_3 (q : Q) : (Qpower q 3 == q * q * q)%Q.
Proof. cbn [Qpower Qpower_positive pow_pos Pos.iter_op]. ring. Qed.

Lemma ease_low (p : Q) : (p < 1 # 2)%Q -> (ease p == 2 * p * p)%Q.
Proof.
  intros H. unfold ease. apply Qltb_true in H. rewrite H. reflexivity.
Qed.

Lemma ease_high (p : Q) :
  (1 # 2 <= p)%Q ->
  (ease p == 1 - (-2 * p + 2) * (-2 * p + 2) * (-2 * p + 2) * (1 # 2))%Q.
Proof.
  intros H. unfold ease. apply Qltb_false in H. rewrite H.
  rewrite Qpower_3. field.
Qed.

Lemma ease_0 (p : Q) : (p == 0)%Q -> (ease p == 0)%Q.
Proof.
  intros H. rewrite ease_low by (rewrite H; reflexivity). rewrite H. ring.
Qed.

Lemma ease_1 (p : Q) : (p == 1)%Q -> (ease p == 1)%Q.
Proof.
  intros H. rewrite ease_high by (rewrite H; discriminate). rewrite H. ring.
Qed.

Lemma square_monotone (a b : Q) :
  (0 <= a)%Q -> (a <= b)%Q -> (a * a <= b * b)%Q.
Proof.
  intros Ha Hab.
  assert (0 <= (b - a) * (b + a))%Q by (apply Qmult_le_0_compat; lra).
  lra.
Qed.

Lemma cube_monotone (a b : Q) :
  (0 <= a)%Q -> (a <= b)%Q -> (a * a * a <= b * b * b)%Q.
Proof.
  intros Ha Hab. pose proof (square_monotone a b Ha Hab) as Hsq.
  assert (H0 : (0 <= a * a)%Q) by (apply Qmult_le_0_compat; lra).
  assert (H1 : (a * a * a <= a * a * b)%Q).
  { rewrite !(Qmult_comm (a * a)). apply Qmult_le_compat_r; lra. }
  assert (H2 : (a * a * b <= b * b * b)%Q).
  { apply Qmult_le_compat_r; lra. }
  lra.
Qed.

Lemma ease_monotone (a b : Q) :
  (0 <= a)%Q -> (a <= b)%Q -> (b <= 1)%Q -> (ease a <= ease b)%Q.
Proof.
  intros Ha Hab Hb.
  destruct (Qlt_le_dec a (1 # 2)) as [La | La];
    destruct (Qlt_le_dec b (1 # 2)) as [Lb | Lb].
  - rewrite (ease_low a La), (ease_low b Lb).
    pose proof (square_monotone a b Ha Hab). lra.
  - rewrite (ease_low a La), (ease_high b Lb).
    assert (Ha' : (a <= 1 # 2)%Q) by lra.
    pose proof (square_monotone a (1 # 2) Ha Ha').
    assert (H0 : (0 <= -2 * b + 2)%Q) by lra.
    assert (H1 : (-2 * b + 2 <= 1)%Q) by lra.
    pose proof (cube_monotone (-2 * b + 2) 1 H0 H1). lra.
  - exfalso. lra.
  - rewrite (ease_high a La), (ease_high b Lb).
    assert (H0 : (0 <= -2 * b + 2)%Q) by lra.
    assert (H1 : (-2 * b + 2 <= -2 * a + 2)%Q) by lra.
    pose proof (cube_monotone (-2 * b + 2) (-2 * a + 2) H0 H1). lra.
Qed.

(** C5. The easing expression is [2t^2] below one half and
    [1 - (-2t+2)^3/2] from one half on; it takes the values 0, 1/2 and 1
    at 0, 1/2 and 1, and it is monotonic non-decreasing on [0,1]. *)
Theorem ease_in_out_shape :
  (forall t, t < 1 # 2 -> ease t == 2 * t * t)%Q /\
  (forall t, 1 # 2 <= t -> ease t == 1 - Qpower (-2 * t + 2) 3 / 2)%Q /\
  (ease 0 == 0)%Q /\ (ease 1 == 1)%Q /\ (ease (1 # 2) == 1 # 2)%Q /\
  (forall a b, 0 <= a -> a <= b -> b <= 1 -> ease a <= ease b)%Q.
Proof.
  split; [exact ease_low|].
  split.
  { intros t Ht. rewrite (ease_high t Ht), Qpower_3. field. }
  split; [apply ease_0; reflexivity|].
  split; [apply ease_1; reflexivity|].
  split; [reflexivity|].
  exact ease_monotone.
Qed.

Lemma ease_in_out_shape_witness :
  (ease (1 # 4) == 2 * (1 # 4) * (1 # 4))%Q /\
  (ease (3 # 4) == 1 - Qpower (-2 * (3 # 4) + 2) 3 / 2)%Q /\
  (ease (1 # 4) <= ease (3 # 4))%Q.
Proof.
  destruct ease_in_out_shape as [Hlow [Hhigh [_ [_ [_ Hmono]]]]].
  split; [apply Hlow; reflexivity|].
  split; [apply Hhigh; discriminate|].
  apply Hmono; discriminate.
Defined.

(** ** The tick of a transition *)

Lemma progress_at_start (a : Animation) (t : Z) :
  t = startTime a -> (progress a t == 0)%Q.
Proof.
  intros ->. unfold progress. rewrite Z.sub_diag.
  rewrite Q.min_l.
  - unfold Qdiv. ring.
  - unfold Qdiv. setoid_replace (inject_Z 0 * / duration a)%Q with 0%Q by ring.
    discriminate.
Qed.

Lemma progress_at_end (a : Animation) (t : Z) :
  (0 < duration a)%Q -> (duration a <= inject_Z (t - startTime a))%Q ->
  (progress a t == 1)%Q.
Proof.
  intros Hd He. unfold progress. apply Q.min_r.
  apply Qle_shift_div_l; [exact Hd | lra].
Qed.

Lemma progress_before_end (a : Animation) (t : Z) :
  (0 < duration a)%Q -> (inject_Z (t - startTime a) < duration a)%Q ->
  (progress a t < 1)%Q.
Proof.
  intros Hd He. unfold progress. apply Q.min_lt_iff. left.
  apply Qlt_shift_div_r; [exact Hd | lra].
Qed.

Lemma progress_le_1 (a : Animation) (t : Z) : (progress a t <= 1)%Q.
Proof. unfold progress. apply Q.le_min_r. Qed.

(** What [animate] does while [progress < 1]. *)
Lemma animate_running (a : Animation) (s : State) :
  (progress a (now s) < 1)%Q ->
  animate a s =
  requestAnimationFrame a
    (set_controls_target
       (THREE.lerpVectors (startLookAt a) (targetLookAt a)
          (ease (progress a (now s))))
       (set_camera_position
          (THREE.lerpVectors (startPosition a) (targetPosition a)
             (ease (progress a (now s)))) s)).
Proof.
  intros H. unfold animate. apply Qltb_true in H. rewrite H. reflexivity.
Qed.

(** What [animate] does once [progress] has reached 1. *)
Lemma animate_finished (a : Animation) (s : State) :
  (progress a (now s) == 1)%Q ->
  animate a s =
  set_isEditingRef false
    (set_isAnimating false
       (set_controls_target
          (THREE.lerpVectors (startLookAt a) (targetLookAt a)
             (ease (progress a (now s))))
          (set_camera_position
             (THREE.lerpVectors (startPosition a) (targetPosition a)
                (ease (progress a (now s)))) s))).
Proof.
  intros H. unfold animate.
  assert (F : Qltb (progress a (now s)) 1 = false).
  { apply Qltb_false. rewrite H. apply Qle_refl. }
  rewrite F. reflexivity.
Qed.





(** ** Index arithmetic *)

Lemma rem_wraps_once (a b : Z) : 0 < b -> b <= a < 2 * b -> Z.rem a b = a - b.
Proof.
  intros Hb Ha. rewrite Z.rem_mod_nonneg by lia.
  symmetry. apply Z.mod_unique with (q := 1); lia.
Qed.

Section IndexFacts.

Variable viewpoints : list Viewpoint.

Let len := viewpoints_length viewpoints.

Lemma next_index_value (i : Z) :
  index_in_range viewpoints i ->
  next_index viewpoints i = if i + 1 <? len then i + 1 else 0.
Proof.
  unfold index_in_range, next_index. fold len. intros H.
  destruct (Z.ltb_spec (i + 1) len) as [L | L].
  - apply Z.rem_small. lia.
  - replace (i + 1) with len by lia. apply Z.rem_same. lia.
Qed.

Lemma prev_index_value (i : Z) :
  index_in_range viewpoints i ->
  prev_index viewpoints i = if 0 <? i then i - 1 else len - 1.
Proof.
  unfold index_in_range, prev_index. fold len. intros H.
  destruct (Z.ltb_spec 0 i) as [L | L].
  - rewrite rem_wraps_once by lia. lia.
  - replace i with 0 by lia. rewrite Z.rem_small by lia. lia.
Qed.

Lemma next_index_in_range (i : Z) :
  index_in_range viewpoints i -> index_in_range viewpoints (next_index viewpoints i).
Proof.
  intros H. rewrite (next_index_value i H). unfold index_in_range in *.
  destruct (Z.ltb_spec (i + 1) len); lia.
Qed.

Lemma prev_index_in_range (i : Z) :
  index_in_range viewpoints i -> index_in_range viewpoints (prev_index viewpoints i).
Proof.
  intros H. rewrite (prev_index_value i H). unfold index_in_range in *.
  destruct (Z.ltb_spec 0 i); lia.
Qed.

Lemma next_viewpoint_in_range (dy : Q) (i : Z) :
  index_in_range viewpoints i -> index_in_range viewpoints (next_viewpoint viewpoints dy i).
Proof.
  intros H. unfold next_viewpoint.
  destruct (Qltb 0 dy); [apply next_index_in_range | apply prev_index_in_range];
    exact H.
Qed.

Lemma at_index_in_range (i : Z) :
  index_in_range viewpoints i -> exists vp, at_index viewpoints i = Some vp.
Proof.
  unfold index_in_range, at_index, len, viewpoints_length. intros H.
  destruct (Z.ltb_spec i 0) as [L | L]; [lia|].
  destruct (nth_error viewpoints (Z.to_nat i)) as [vp |] eqn:E.
  - exists vp. reflexivity.
  - apply nth_error_None in E. lia.
Qed.

End IndexFacts.

(** C7. On every index of the catalog, the forward computation undoes the
    backward one: [((i - 1 + length) % length + 1) % length = i]. *)
Theorem next_index_prev_index (viewpoints : list Viewpoint) (i : Z) :
  0 <= i < viewpoints_length viewpoints ->
  next_index viewpoints (prev_index viewpoints i) = i.
Proof.
  intros H.
  rewrite (next_index_value viewpoints _ (prev_index_in_range viewpoints i H)).
  rewrite (prev_index_value viewpoints i H).
  destruct (Z.ltb_spec 0 i) as [L | L].
  - destruct (Z.ltb_spec (i - 1 + 1) (viewpoints_length viewpoints)); lia.
  - destruct (Z.ltb_spec (viewpoints_length viewpoints - 1 + 1)
                (viewpoints_length viewpoints)); lia.
Qed.

Lemma next_index_prev_index_witness :
  next_index App.viewpoints (prev_index App.viewpoints 0) = 0.
Proof.
  apply (next_index_prev_index App.viewpoints 0). vm_compute.
  split; [discriminate | reflexivity].
Defined.

(** ** What the handlers leave alone *)

Lemma animate_frame (a : Animation) (s : State) :
  currentViewpoint (animate a s) = currentViewpoint s /\
  now (animate a s) = now s /\
  scrollTimeout (animate a s) = scrollTimeout s.
Proof. unfold animate. destruct (Qltb _ _); repeat split. Qed.

Lemma animateToViewpoint_frame (tp tl : Vector3) (d : Q) (s : State) :
  currentViewpoint (animateToViewpoint tp tl d s) = currentViewpoint s /\
  now (animateToViewpoint tp tl d s) = now s /\
  scrollTimeout (animateToViewpoint tp tl d s) = scrollTimeout s.
Proof.
  unfold animateToViewpoint. destruct (isAnimating s); [repeat split|].
  match goal with |- context [animate ?a ?s'] =>
    destruct (animate_frame a s') as [H1 [H2 H3]] end.
  rewrite H1, H2, H3. repeat split.
Qed.

Lemma fold_animate_frame (l : list Animation) (s : State) :
  currentViewpoint (fold_left (fun acc a => animate a acc) l s)
    = currentViewpoint s /\
  now (fold_left (fun acc a => animate a acc) l s) = now s /\
  scrollTimeout (fold_left (fun acc a => animate a acc) l s)
    = scrollTimeout s.
Proof.
  revert s. induction l as [| a l IH]; intros s; cbn [fold_left].
  - repeat split.
  - destruct (IH (animate a s)) as [H1 [H2 H3]].
    destruct (animate_frame a s) as [G1 [G2 G3]].
    rewrite H1, H2, H3, G1, G2, G3. repeat split.
Qed.

Lemma handle_currentViewpoint (e : Event) (s : State) :
  currentViewpoint (handle e s) = currentViewpoint s.
Proof.
  destruct e as [dy | | p l |]; cbn [handle].
  - reflexivity.
  - unfold animationFrame.
    destruct (fold_animate_frame (animationFrames s)
                (set_animationFrames [] s)) as [H _].
    rewrite H. reflexivity.
  - unfold handleCustomPosition, setCustomViewpoint.
    match goal with |- context [animateToViewpoint ?tp ?tl ?d ?s'] =>
      destruct (animateToViewpoint_frame tp tl d s') as [H _] end.
    rewrite H. reflexivity.
  - reflexivity.
Qed.

(** ** The timer callback *)

Section CallbackFacts.

Variable viewpoints : list Viewpoint.

(** With the index in range the callback does not throw; it stores the
    index computed from the captured [deltaY]. *)
Lemma scroll_callback_index (dy : Q) (s : State) :
  index_in_range viewpoints (currentViewpoint s) ->
  exists s',
    scroll_callback viewpoints dy s = Some s' /\
    currentViewpoint s' = next_viewpoint viewpoints dy (currentViewpoint s) /\
    index_in_range viewpoints (currentViewpoint s').
Proof.
  intros H. unfold scroll_callback, setViewpoint.
  pose proof (next_viewpoint_in_range viewpoints dy _ H) as Hn.
  destruct (at_index_in_range viewpoints _ Hn) as [vp E]. rewrite E.
  eexists. split; [reflexivity|]. cbn. split; [reflexivity | exact Hn].
Qed.

(** While a transition is active the callback changes the index and
    nothing else. *)
Lemma scroll_callback_rejected (dy : Q) (s : State) :
  index_in_range viewpoints (currentViewpoint s) ->
  isAnimating s = true ->
  scroll_callback viewpoints dy s =
  Some (set_currentViewpoint
          (next_viewpoint viewpoints dy (currentViewpoint s)) s).
Proof.
  intros H A. unfold scroll_callback, setViewpoint.
  pose proof (next_viewpoint_in_range viewpoints dy _ H) as Hn.
  destruct (at_index_in_range viewpoints _ Hn) as [vp E]. rewrite E.
  unfold animateToViewpoint. rewrite A. reflexivity.
Qed.

Lemma run_timers_in_range (s : State) :
  index_in_range viewpoints (currentViewpoint s) ->
  exists s',
    run_timers viewpoints s = Some s' /\
    index_in_range viewpoints (currentViewpoint s').
Proof.
  intros H. unfold run_timers.
  destruct (due (now s) s) as [dy |].
  - destruct (scroll_callback_index dy (set_scrollTimeout None s) H)
      as [s' [E [_ R]]].
    exists s'. split; assumption.
  - exists s. split; [reflexivity | exact H].
Qed.

Lemma step_in_range (te : Z * Event) (s : State) :
  index_in_range viewpoints (currentViewpoint s) ->
  exists s',
    step viewpoints te s = Some s' /\
    index_in_range viewpoints (currentViewpoint s').
Proof.
  intros H. unfold step.
  destruct (run_timers_in_range (set_now (fst te) s) H) as [s1 [E R]].
  rewrite E. eexists. split; [reflexivity|].
  rewrite handle_currentViewpoint. exact R.
Qed.

Lemma run_in_range (trace : list (Z * Event)) (s : State) :
  index_in_range viewpoints (currentViewpoint s) ->
  exists s',
    run viewpoints trace s = Some s' /\
    index_in_range viewpoints (currentViewpoint s').
Proof.
  revert s. induction trace as [| te trace IH]; intros s H; cbn [run].
  - exists s. split; [reflexivity | exact H].
  - destruct (step_in_range te s H) as [s1 [E R]]. rewrite E.
    apply IH, R.
Qed.

End CallbackFacts.

(** ** Single flight *)

Lemma Vector3_eta (v : Vector3) :
  THREE.mkVector3 (THREE.x v) (THREE.y v) (THREE.z v) = v.
Proof. destruct v. reflexivity. Qed.

(** An accepted [animateToViewpoint] with a positive duration: its first
    tick, at elapsed time 0, registers the closure for the next frame. *)
Lemma animateToViewpoint_accepted (tp tl : Vector3) (d : Q) (s : State) :
  isAnimating s = false -> (0 < d)%Q ->
  isAnimating (animateToViewpoint tp tl d s) = true /\
  animationFrames (animateToViewpoint tp tl d s)
  = animationFrames s
      ++ [mkAnimation tp tl d (camera_position s) (controls_target s) (now s)] /\
  isEditingRef (animateToViewpoint tp tl d s) = true.
Proof.
  intros A Hd. unfold animateToViewpoint. rewrite A.
  rewrite animate_running.
  - cbn. repeat split.
  - cbn [now set_isAnimating set_isEditingRef].
    rewrite progress_at_start by reflexivity. reflexivity.
Qed.

Lemma animate_keeps_one (a : Animation) (s : State) :
  isAnimating s = true -> animationFrames s = [] ->
  duration a = default_duration ->
  single_flight (animate a s).
Proof.
  intros A F D. unfold animate, single_flight.
  destruct (Qltb _ _); cbn; rewrite ?A, ?F.
  - exists a. split; [reflexivity | exact D].
  - reflexivity.
Qed.

Lemma animationFrame_keeps_one (s : State) :
  single_flight s -> single_flight (animationFrame s).
Proof.
  unfold single_flight at 1. intros H. unfold animationFrame.
  destruct (isAnimating s) eqn:A.
  - destruct H as [a [F D]]. rewrite F. cbn [fold_left].
    apply animate_keeps_one; [exact A | reflexivity | exact D].
  - rewrite H. cbn [fold_left]. unfold single_flight. cbn.
    rewrite A. reflexivity.
Qed.

Lemma start_keeps_one (tp tl : Vector3) (s : State) :
  single_flight s -> single_flight (animateToViewpoint tp tl default_duration s).
Proof.
  intros H. destruct (isAnimating s) eqn:A.
  - unfold animateToViewpoint. rewrite A. exact H.
  - unfold single_flight in H. rewrite A in H.
    destruct (animateToViewpoint_accepted tp tl default_duration s A)
      as [H1 [H2 _]]; [reflexivity|].
    unfold single_flight. rewrite H1, H2, H. cbn [app].
    eexists. split; reflexivity.
Qed.

Lemma handle_keeps_one (e : Event) (s : State) :
  single_flight s -> single_flight (handle e s).
Proof.
  intros H. destruct e as [dy | | p l |]; cbn [handle].
  - exact H.
  - apply animationFrame_keeps_one, H.
  - unfold handleCustomPosition, setCustomViewpoint.
    apply start_keeps_one. exact H.
  - exact H.
Qed.

Lemma scroll_callback_keeps_one (viewpoints : list Viewpoint) (dy : Q)
    (s s' : State) :
  single_flight s -> scroll_callback viewpoints dy s = Some s' ->
  single_flight s'.
Proof.
  intros H. unfold scroll_callback, setViewpoint.
  destruct (at_index viewpoints _) as [vp |]; [|discriminate].
  intros E. injection E as <-.
  change (single_flight
            (animateToViewpoint
               (THREE.mkVector3 (THREE.x (position vp)) (THREE.y (position vp))
                  (THREE.z (position vp)))
               (THREE.mkVector3 (THREE.x (lookAt vp)) (THREE.y (lookAt vp))
                  (THREE.z (lookAt vp)))
               default_duration s)).
  apply start_keeps_one, H.
Qed.

Lemma step_keeps_one (viewpoints : list Viewpoint) (te : Z * Event)
    (s s' : State) :
  single_flight s -> step viewpoints te s = Some s' -> single_flight s'.
Proof.
  intros H. unfold step, run_timers.
  destruct (due (now (set_now (fst te) s)) (set_now (fst te) s)) as [dy |].
  - destruct (scroll_callback viewpoints dy _) as [s1 |] eqn:C;
      [|discriminate].
    intros E. injection E as <-. apply handle_keeps_one.
    exact (scroll_callback_keeps_one viewpoints dy
             (set_scrollTimeout None (set_now (fst te) s)) s1 H C).
  - intros E. injection E as <-. apply handle_keeps_one. exact H.
Qed.

Lemma run_keeps_one (viewpoints : list Viewpoint) (trace : list (Z * Event))
    (s s' : State) :
  single_flight s -> run viewpoints trace s = Some s' -> single_flight s'.
Proof.
  revert s. induction trace as [| te trace IH]; intros s H; cbn [run].
  - intros E. injection E as <-. exact H.
  - destruct (step viewpoints te s) as [s1 |] eqn:S; [|discriminate].
    apply IH. apply (step_keeps_one viewpoints te s s1); assumption.
Qed.

(** In every state the mounted component can be in, at most one
    transition is in flight. *)
Lemma boot_single_flight (viewpoints : list Viewpoint) (t : Z)
    (trace : list (Z * Event)) (s : State) :
  boot viewpoints t trace = Some s -> single_flight s.
Proof.
  unfold boot, init.
  destruct (at_index viewpoints 0) as [initial |]; [|discriminate].
  apply run_keeps_one. reflexivity.
Qed.

(** C1. A call of [animateToViewpoint] made while a transition is active
    returns the state as it is: the flag, the registered closure with its
    start pose, target pose and start time, and the camera are untouched,
    and whatever happens next happens as if the call had not been made.
    In a state the mounted component can be in, the one closure of the
    transition in flight is still the only one registered: the new
    request is not queued. *)
Theorem animateToViewpoint_single_flight
    (targetPosition targetLookAt : Vector3) (duration : Q) (s : State) :
  isAnimating s = true ->
  animateToViewpoint targetPosition targetLookAt duration s = s /\
  isAnimating (animateToViewpoint targetPosition targetLookAt duration s)
    = true /\
  animationFrames (animateToViewpoint targetPosition targetLookAt duration s)
    = animationFrames s /\
  (forall viewpoints trace,
     run viewpoints trace
       (animateToViewpoint targetPosition targetLookAt duration s)
     = run viewpoints trace s) /\
  (forall viewpoints t trace,
     boot viewpoints t trace = Some s ->
     exists a,
       animationFrames s = [a] /\
       animationFrames
         (animateToViewpoint targetPosition targetLookAt duration s) = [a]).
Proof.
  intros H.
  assert (E : animateToViewpoint targetPosition targetLookAt duration s = s).
  { unfold animateToViewpoint. rewrite H. reflexivity. }
  rewrite E. repeat split; try assumption.
  intros viewpoints t trace B.
  pose proof (boot_single_flight viewpoints t trace s B) as I.
  unfold single_flight in I. rewrite H in I. destruct I as [a [F _]].
  exists a. split; exact F.
Qed.

Lemma animateToViewpoint_single_flight_witness :
  animateToViewpoint (v3 59 (-8) (-9)) (v3 59 4 (-40)) 2000 in_flight
  = in_flight /\
  map targetPosition
    (animationFrames
       (animateToViewpoint (v3 59 (-8) (-9)) (v3 59 4 (-40)) 2000 in_flight))
  = [v3 1 2 3].
Proof.
  destruct (animateToViewpoint_single_flight
              (v3 59 (-8) (-9)) (v3 59 4 (-40)) 2000 in_flight)
    as [E [_ [F _]]].
  - reflexivity.
  - split; [exact E|]. rewrite F. reflexivity.
Defined.

(** ** The index *)

(** C8. From an index in range, both index computations, the timer
    callback (whichever way the wheel went) and every run of events leave
    the index in range, and neither the callback nor the run throws. With the six viewpoints of App.jsx, five scroll-down
    gestures from index 0, each transition run to its end, give index 5,
    and a sixth one wraps to 0. *)
Theorem index_stays_in_range :
  (forall viewpoints i,
     index_in_range viewpoints i ->
     index_in_range viewpoints (next_index viewpoints i) /\
     index_in_range viewpoints (prev_index viewpoints i)) /\
  (forall viewpoints dy s,
     index_in_range viewpoints (currentViewpoint s) ->
     exists s',
       scroll_callback viewpoints dy s = Some s' /\
       index_in_range viewpoints (currentViewpoint s')) /\
  (forall viewpoints trace s,
     index_in_range viewpoints (currentViewpoint s) ->
     exists s',
       run viewpoints trace s = Some s' /\
       index_in_range viewpoints (currentViewpoint s')) /\
  viewpoints_length App.viewpoints = 6 /\
  (exists s,
     boot App.viewpoints 0 five_advances = Some s /\
     currentViewpoint s = 5 /\ isAnimating s = false) /\
  (exists s,
     boot App.viewpoints 0 (five_advances ++ advance 15000 1) = Some s /\
     currentViewpoint s = 0).
Proof.
  split.
  { intros viewpoints i H.
    split; [apply next_index_in_range | apply prev_index_in_range]; exact H. }
  split.
  { intros viewpoints dy s H.
    destruct (scroll_callback_index viewpoints dy s H) as [s' [E [_ R]]].
    exists s'. split; assumption. }
  split; [exact run_in_range|].
  split; [reflexivity|].
  split.
  - eexists. split; [vm_compute; reflexivity|]. split; reflexivity.
  - eexists. split; [vm_compute; reflexivity|]. reflexivity.
Qed.

Lemma index_stays_in_range_witness :
  exists s',
    scroll_callback App.viewpoints (-3) mounted = Some s' /\
    index_in_range App.viewpoints (currentViewpoint s').
Proof.
  apply (proj1 (proj2 index_stays_in_range) App.viewpoints (-3)%Q mounted).
  vm_compute. split; [discriminate | reflexivity].
Defined.

Lemma nearb_near (eps : Q) (a b : Vector3) :
  nearb eps a b = true -> near eps a b.
Proof.
  unfold nearb, near. rewrite !andb_true_iff, !Qle_bool_iff. tauto.
Qed.

(** C3. The timer callback stores the index computed by the modular
    expression whether or not a transition is active; when one is, the
    index is all it changes. With the catalog of App.jsx, two scroll-down
    requests at 0 and at 500 leave the index at 2 while the one
    transition, started at 0, still has viewpoint 1 as its target: at
    1000 the camera is half way from the start pose to viewpoint 1, at
    1999 the transition is still active, and at 2000 it ends with the
    camera at viewpoint 1 (poses to within a thousandth). *)
Theorem index_updated_even_when_rejected :
  (forall viewpoints dy s,
     index_in_range viewpoints (currentViewpoint s) ->
     exists s',
       scroll_callback viewpoints dy s = Some s' /\
       currentViewpoint s'
       = next_viewpoint viewpoints dy (currentViewpoint s)) /\
  (forall viewpoints dy s,
     index_in_range viewpoints (currentViewpoint s) ->
     isAnimating s = true ->
     scroll_callback viewpoints dy s
     = Some (set_currentViewpoint
               (next_viewpoint viewpoints dy (currentViewpoint s)) s)) /\
  option_map position (at_index App.viewpoints 1) = Some (v3 59 (-8) (-9)) /\
  option_map lookAt (at_index App.viewpoints 1) = Some (v3 59 4 (-40)) /\
  (exists s,
     boot App.viewpoints (-100) two_requests_500ms_apart = Some s /\
     currentViewpoint s = 2 /\ isAnimating s = true /\
     map startTime (animationFrames s) = [0] /\
     map duration (animationFrames s) = [2000%Q] /\
     map targetPosition (animationFrames s) = [v3 59 (-8) (-9)] /\
     map targetLookAt (animationFrames s) = [v3 59 4 (-40)]) /\
  (exists s,
     boot App.viewpoints (-100)
       (two_requests_500ms_apart ++ [(1000, AnimationFrame)]) = Some s /\
     currentViewpoint s = 2 /\ isAnimating s = true /\
     map targetPosition (animationFrames s) = [v3 59 (-8) (-9)] /\
     map targetLookAt (animationFrames s) = [v3 59 4 (-40)] /\
     near (1 # 1000) (camera_position s)
       (THREE.mkVector3 (111 # 2) (-15 # 2) (-2)) /\
     near (1 # 1000) (controls_target s)
       (THREE.mkVector3 51 (1 # 2) (-12))) /\
  (exists s,
     boot App.viewpoints (-100)
       (two_requests_500ms_apart
          ++ [(1000, AnimationFrame); (1999, AnimationFrame)]) = Some s /\
     currentViewpoint s = 2 /\ isAnimating s = true /\
     map targetPosition (animationFrames s) = [v3 59 (-8) (-9)] /\
     map targetLookAt (animationFrames s) = [v3 59 4 (-40)]) /\
  (exists s,
     boot App.viewpoints (-100)
       (two_requests_500ms_apart
          ++ [(1000, AnimationFrame); (1999, AnimationFrame);
              (2000, AnimationFrame)]) = Some s /\
     currentViewpoint s = 2 /\ isAnimating s = false /\
     animationFrames s = [] /\
     near (1 # 1000) (camera_position s) (v3 59 (-8) (-9)) /\
     near (1 # 1000) (controls_target s) (v3 59 4 (-40))).
Proof.
  split.
  { intros viewpoints dy s H.
    destruct (scroll_callback_index viewpoints dy s H) as [s' [E [I _]]].
    exists s'. split; assumption. }
  split; [exact scroll_callback_rejected|].
  split; [reflexivity|].
  split; [reflexivity|].
  split; [|split; [|split]].
  - eexists. split; [vm_compute; reflexivity|]. repeat split.
  - eexists. split; [vm_compute; reflexivity|].
    split; [reflexivity|]. split; [reflexivity|].
    split; [reflexivity|]. split; [reflexivity|].
    split; apply nearb_near; vm_compute; reflexivity.
  - eexists. split; [vm_compute; reflexivity|]. repeat split.
  - eexists. split; [vm_compute; reflexivity|].
    split; [reflexivity|]. split; [reflexivity|]. split; [reflexivity|].
    split; apply nearb_near; vm_compute; reflexivity.
Qed.

Lemma index_updated_even_when_rejected_witness :
  scroll_callback App.viewpoints 1 in_flight
  = Some (set_currentViewpoint 1 in_flight).
Proof.
  apply (proj1 (proj2 index_updated_even_when_rejected)
           App.viewpoints 1%Q in_flight).
  - vm_compute. split; [discriminate | reflexivity].
  - reflexivity.
Defined.

(** ** Custom poses and startup *)

(** C9. A custom pose applied while no transition is active: the
    transition becomes active, the closure registered for the next frames
    has the requested position and look-at as its target, the current
    camera pose as its start and 2000 ms as its duration, and the
    viewpoint index is the one it was. *)
Theorem custom_pose_starts_transition
    (customPosition customLookAt : Vector3) (s : State) :
  isAnimating s = false ->
  isAnimating (handleCustomPosition customPosition customLookAt s) = true /\
  animationFrames (handleCustomPosition customPosition customLookAt s)
  = animationFrames s
      ++ [ {| targetPosition := customPosition;
              targetLookAt := customLookAt;
              duration := 2000;
              startPosition := camera_position s;
              startLookAt := controls_target s;
              startTime := now s |} ] /\
  currentViewpoint (handleCustomPosition customPosition customLookAt s)
  = currentViewpoint s /\
  (forall viewpoints t,
     scrollTimeout s = None ->
     step viewpoints (t, ApplyPosition customPosition customLookAt) s
     = Some (handleCustomPosition customPosition customLookAt (set_now t s))).
Proof.
  intros A.
  assert (S : forall viewpoints t,
     scrollTimeout s = None ->
     step viewpoints (t, ApplyPosition customPosition customLookAt) s
     = Some (handleCustomPosition customPosition customLookAt (set_now t s))).
  { intros viewpoints t T. unfold step, run_timers, due.
    cbn [fst snd scrollTimeout set_now]. rewrite T. reflexivity. }
  unfold handleCustomPosition, setCustomViewpoint in *.
  rewrite !Vector3_eta.
  destruct (animateToViewpoint_accepted customPosition customLookAt
              default_duration (set_isEditingRef true s) A)
    as [H1 [H2 _]]; [reflexivity|].
  destruct (animateToViewpoint_frame customPosition customLookAt
              default_duration (set_isEditingRef true s)) as [H3 _].
  split; [exact H1|]. split; [exact H2|]. split; [exact H3|].
  intros viewpoints t T. rewrite (S viewpoints t T).
  rewrite !Vector3_eta. reflexivity.
Qed.

Lemma custom_pose_starts_transition_witness :
  isAnimating in_flight = true /\
  map targetPosition (animationFrames in_flight) = [v3 1 2 3] /\
  map targetLookAt (animationFrames in_flight) = [v3 0 0 0] /\
  currentViewpoint in_flight = currentViewpoint mounted.
Proof.
  destruct (custom_pose_starts_transition (v3 1 2 3) (v3 0 0 0) mounted)
    as [H1 [H2 [H3 _]]].
  - reflexivity.
  - split; [exact H1|]. split; [|split; [|exact H3]];
      unfold in_flight; rewrite H2; reflexivity.
Defined.

(** No timer, no closure and no active transition. *)
Lemma quiet_step (viewpoints : list Viewpoint) (te : Z * Event) (s : State) :
  snd te = AnimationFrame \/ snd te = Idle ->
  scrollTimeout s = None -> animationFrames s = [] ->
  step viewpoints te s = Some (set_now (fst te) s).
Proof.
  intros E T F. unfold step, run_timers, due. cbn. rewrite T.
  destruct E as [E | E]; rewrite E; cbn; [|reflexivity].
  unfold animationFrame. cbn. rewrite F. cbn.
  unfold set_animationFrames, set_now. cbn. rewrite F. reflexivity.
Qed.

Lemma quiet_run (viewpoints : list Viewpoint) (trace : list (Z * Event))
    (s : State) :
  Forall (fun te => snd te = AnimationFrame \/ snd te = Idle) trace ->
  scrollTimeout s = None -> animationFrames s = [] ->
  exists s',
    run viewpoints trace s = Some s' /\
    currentViewpoint s' = currentViewpoint s /\
    camera_position s' = camera_position s /\
    controls_target s' = controls_target s /\
    isAnimating s' = isAnimating s /\
    animationFrames s' = [] /\ scrollTimeout s' = None.
Proof.
  intros H. revert s. induction H as [| te trace E _ IH]; intros s T F.
  - exists s. cbn. repeat split; assumption.
  - cbn [run]. rewrite (quiet_step viewpoints te s E T F).
    destruct (IH (set_now (fst te) s) T F) as [s' [R H']].
    exists s'. split; [exact R | exact H'].
Qed.



(** ** The debounce *)

Lemma last_cons {A : Type} (e d : A) (l : list A) :
  last (e :: l) d = last l e.
Proof.
  revert e d. induction l as [| x l IH]; intros e d; [reflexivity|].
  change (last (e :: x :: l) d) with (last (x :: l) d).
  rewrite (IH x d), (IH x e). reflexivity.
Qed.

Section DebounceFacts.

Variable viewpoints : list Viewpoint.

Lemma run_app (tr1 tr2 : list (Z * Event)) (s : State) :
  run viewpoints (tr1 ++ tr2) s =
  match run viewpoints tr1 s with
  | Some s' => run viewpoints tr2 s'
  | None => None
  end.
Proof.
  revert s. induction tr1 as [| te tr1 IH]; intros s; cbn [run app].
  - reflexivity.
  - destruct (step viewpoints te s) as [s1 |]; [apply IH | reflexivity].
Qed.

Lemma intents_app (tr1 tr2 : list (Z * Event)) (s : State) :
  intents viewpoints (tr1 ++ tr2) s =
  intents viewpoints tr1 s ++
  match run viewpoints tr1 s with
  | Some s' => intents viewpoints tr2 s'
  | None => []
  end.
Proof.
  revert s. induction tr1 as [| te tr1 IH]; intros s;
    cbn [run intents app].
  - reflexivity.
  - destruct (step viewpoints te s) as [s1 |].
    + rewrite IH, app_assoc. reflexivity.
    + rewrite !app_nil_r. reflexivity.
Qed.

(** A step at which no timer is due runs the handler and nothing else. *)
Lemma step_not_due (te : Z * Event) (s : State) :
  due (fst te) (set_now (fst te) s) = None ->
  step viewpoints te s = Some (handle (snd te) (set_now (fst te) s)).
Proof.
  intros D. unfold step, run_timers.
  cbn [now set_now]. rewrite D. reflexivity.
Qed.

(** The timer set at [t] is not due before [t + 100]. *)
Lemma armed_not_due (t t' : Z) (dy : Q) (s : State) :
  t' < t + 100 -> due t' (set_now t' (armed t dy s)) = None.
Proof.
  intros H. unfold due. cbn.
  destruct (Z.leb_spec (t + 100) t'); [lia | reflexivity].
Qed.

(** From [t + 100] on it is due, with the [deltaY] it has captured. *)
Lemma armed_due (t t' : Z) (dy : Q) (s : State) :
  t + 100 <= t' -> due t' (set_now t' (armed t dy s)) = Some dy.
Proof.
  intros H. unfold due. cbn.
  destruct (Z.leb_spec (t + 100) t'); [reflexivity | lia].
Qed.

(** A wheel event with a timer pending but not due replaces the timer. *)
Lemma wheel_rearms (t t' : Z) (dy dy' : Q) (s : State) :
  t' < t + 100 ->
  step viewpoints (t', Wheel dy') (armed t dy s) = Some (armed t' dy' s).
Proof.
  intros H. rewrite step_not_due by (apply armed_not_due; exact H).
  reflexivity.
Qed.

(** A burst on top of a pending timer: no callback runs, and the timer
    left is the one of the last event. *)
Lemma burst_rearms (burst : list (Z * Q)) (t : Z) (dy : Q) (s : State) :
  within_100ms t burst ->
  run viewpoints (wheel_events burst) (armed t dy s)
  = Some (armed (fst (last burst (t, dy))) (snd (last burst (t, dy))) s) /\
  intents viewpoints (wheel_events burst) (armed t dy s) = [].
Proof.
  revert t dy. induction burst as [| [t' dy'] burst IH]; intros t dy W.
  - split; reflexivity.
  - destruct W as [Wt W]. cbn [fst] in Wt, W.
    rewrite last_cons.
    change (wheel_events ((t', dy') :: burst))
      with ((t', Wheel dy') :: wheel_events burst).
    cbn [run intents fst snd].
    rewrite (armed_not_due t t' dy s) by lia.
    rewrite (wheel_rearms t t' dy dy' s) by lia.
    destruct (IH t' dy' W) as [R I]. rewrite R, I. split; reflexivity.
Qed.

Lemma scroll_callback_scrollTimeout (dy : Q) (s s' : State) :
  scroll_callback viewpoints dy s = Some s' ->
  scrollTimeout s' = scrollTimeout s.
Proof.
  unfold scroll_callback, setViewpoint.
  destruct (at_index viewpoints _) as [vp |]; [|discriminate].
  intros E. injection E as <-. cbn [scrollTimeout set_currentViewpoint].
  match goal with |- context [animateToViewpoint ?tp ?tl ?d ?s0] =>
    destruct (animateToViewpoint_frame tp tl d s0) as [_ [_ H]] end.
  exact H.
Qed.

(** One burst, from its first event to the quiet time after it. With
    no timer due when it begins, no callback runs during the burst nor
    within 100 ms of its last event; at the first look at the timers
    from 100 ms on, exactly one runs, with the last event's [deltaY],
    and none after it. *)
Lemma burst_then_quiet (s : State) (t0 : Z) (dy0 : Q)
    (burst : list (Z * Q)) (Tearly Tlate Tafter : Z) :
  due t0 (set_now t0 s) = None ->
  within_100ms t0 burst ->
  index_in_range viewpoints (currentViewpoint s) ->
  Tearly < fst (last burst (t0, dy0)) + 100 ->
  fst (last burst (t0, dy0)) + 100 <= Tlate ->
  intents viewpoints (wheel_events ((t0, dy0) :: burst)) s = [] /\
  intents viewpoints
    (wheel_events ((t0, dy0) :: burst) ++ [(Tearly, Idle)]) s = [] /\
  intents viewpoints
    (wheel_events ((t0, dy0) :: burst) ++ [(Tlate, Idle); (Tafter, Idle)]) s
  = [(Tlate, snd (last burst (t0, dy0)))] /\
  exists s',
    run viewpoints (wheel_events ((t0, dy0) :: burst) ++ [(Tlate, Idle)]) s
    = Some s' /\
    currentViewpoint s'
    = next_viewpoint viewpoints (snd (last burst (t0, dy0)))
        (currentViewpoint s) /\
    scrollTimeout s' = None.
Proof.
  intros D W R He Hl.
  set (tl := fst (last burst (t0, dy0))) in *.
  set (dyl := snd (last burst (t0, dy0))) in *.
  assert (S0 : step viewpoints (t0, Wheel dy0) s = Some (armed t0 dy0 s)).
  { rewrite step_not_due by exact D. reflexivity. }
  destruct (burst_rearms burst t0 dy0 s W) as [Rb Ib].
  fold tl dyl in Rb.
  assert (Rall : run viewpoints (wheel_events ((t0, dy0) :: burst)) s
                 = Some (armed tl dyl s)).
  { change (wheel_events ((t0, dy0) :: burst))
      with ((t0, Wheel dy0) :: wheel_events burst).
    cbn [run]. rewrite S0. exact Rb. }
  assert (Iall : intents viewpoints (wheel_events ((t0, dy0) :: burst)) s
                 = []).
  { change (wheel_events ((t0, dy0) :: burst))
      with ((t0, Wheel dy0) :: wheel_events burst).
    cbn [intents fst snd]. rewrite D, S0. exact Ib. }
  destruct (scroll_callback_index viewpoints dyl
              (set_scrollTimeout None (set_now Tlate (armed tl dyl s))) R)
    as [s' [C [Ci _]]].
  pose proof (scroll_callback_scrollTimeout _ _ _ C) as Ct.
  cbn [scrollTimeout set_scrollTimeout] in Ct.
  assert (Sl : step viewpoints (Tlate, Idle) (armed tl dyl s) = Some s').
  { unfold step, run_timers. cbn [fst snd now set_now].
    rewrite (armed_due tl Tlate dyl s Hl), C. reflexivity. }
  split; [exact Iall|].
  split.
  { rewrite intents_app, Iall, Rall. cbn [intents fst snd app].
    rewrite (armed_not_due tl Tearly dyl s He).
    destruct (step viewpoints (Tearly, Idle) (armed tl dyl s));
      reflexivity. }
  split.
  { rewrite intents_app, Iall, Rall. cbn [intents fst snd app].
    rewrite (armed_due tl Tlate dyl s Hl), Sl.
    unfold due at 1. cbn [scrollTimeout set_now]. rewrite Ct.
    cbn [app]. destruct (step viewpoints (Tafter, Idle) s'); reflexivity. }
  exists s'. rewrite run_app, Rall. cbn [run]. rewrite Sl.
  split; [reflexivity|]. split; [exact Ci | exact Ct].
Qed.

End DebounceFacts.

(** C6. A burst of wheel events, each less than 100 ms after the one
    before it, beginning when no timer is due: no timer callback runs
    during the burst, nor at a look at the timers less than 100 ms after
    its last event; at the first look from 100 ms on exactly one runs,
    none at a later look, and the index it stores is the next one when the
    last event's [deltaY] is positive and the previous one when it is
    negative. *)
Theorem debounce_emits_once_after_quiet
    (viewpoints : list Viewpoint) (s : State) (t0 : Z) (dy0 : Q)
    (burst : list (Z * Q)) (Tearly Tlate Tafter : Z) :
  due t0 (set_now t0 s) = None ->
  within_100ms t0 burst ->
  index_in_range viewpoints (currentViewpoint s) ->
  fst (last burst (t0, dy0)) <= Tearly < fst (last burst (t0, dy0)) + 100 ->
  fst (last burst (t0, dy0)) + 100 <= Tlate ->
  intents viewpoints (wheel_events ((t0, dy0) :: burst)) s = [] /\
  intents viewpoints
    (wheel_events ((t0, dy0) :: burst) ++ [(Tearly, Idle)]) s = [] /\
  intents viewpoints
    (wheel_events ((t0, dy0) :: burst) ++ [(Tlate, Idle); (Tafter, Idle)]) s
  = [(Tlate, snd (last burst (t0, dy0)))] /\
  exists s',
    run viewpoints (wheel_events ((t0, dy0) :: burst) ++ [(Tlate, Idle)]) s
    = Some s' /\
    ((0 < snd (last burst (t0, dy0)))%Q ->
     currentViewpoint s' = next_index viewpoints (currentViewpoint s)) /\
    ((snd (last burst (t0, dy0)) < 0)%Q ->
     currentViewpoint s' = prev_index viewpoints (currentViewpoint s)).
Proof.
  intros D W R [_ He] Hl.
  destruct (burst_then_quiet viewpoints s t0 dy0 burst Tearly Tlate Tafter
              D W R He Hl) as [I0 [I1 [I2 [s' [Rn [Ci _]]]]]].
  split; [exact I0|]. split; [exact I1|]. split; [exact I2|].
  exists s'. split; [exact Rn|]. rewrite Ci. unfold next_viewpoint. split.
  - intros P. apply Qltb_true in P. rewrite P. reflexivity.
  - intros N.
    assert (F : Qltb 0 (snd (last burst (t0, dy0))) = false).
    { apply Qltb_false. apply Qlt_le_weak, N. }
    rewrite F. reflexivity.
Qed.

Lemma debounce_emits_once_after_quiet_witness :
  intents App.viewpoints
    (wheel_events [(0, 1%Q); (30, 1%Q); (60, (-1)%Q)]) mounted = [] /\
  intents App.viewpoints
    (wheel_events [(0, 1%Q); (30, 1%Q); (60, (-1)%Q)] ++ [(159, Idle)])
    mounted = [] /\
  intents App.viewpoints
    (wheel_events [(0, 1%Q); (30, 1%Q); (60, (-1)%Q)]
       ++ [(160, Idle); (1000, Idle)]) mounted
  = [(160, (-1)%Q)] /\
  exists s',
    run App.viewpoints
      (wheel_events [(0, 1%Q); (30, 1%Q); (60, (-1)%Q)] ++ [(160, Idle)])
      mounted = Some s' /\
    currentViewpoint s' = 5.
Proof.
  destruct (debounce_emits_once_after_quiet App.viewpoints mounted 0 1
              [(30, 1%Q); (60, (-1)%Q)] 159 160 1000)
    as [I0 [I1 [I2 [s' [R [_ Hprev]]]]]].
  - reflexivity.
  - cbn. lia.
  - vm_compute. split; [discriminate | reflexivity].
  - cbn. lia.
  - cbn. lia.
  - split; [exact I0|]. split; [exact I1|]. split; [exact I2|].
    exists s'. split; [exact R|]. apply Hprev. reflexivity.
Defined.

(** What the handler does with a wheel event whose [deltaY] is 0: it
    arms the timer like any other; when the timer is found due its
    callback runs, once, and takes the branch written for scrolling up:
    the index becomes [(i - 1 + length) % length]. *)
Theorem zero_delta_goes_to_previous
    (viewpoints : list Viewpoint) (s : State) (t T Tafter : Z) :
  due t (set_now t s) = None ->
  index_in_range viewpoints (currentViewpoint s) ->
  t + 100 <= T ->
  intents viewpoints [(t, Wheel 0); (T, Idle); (Tafter, Idle)] s
  = [(T, 0%Q)] /\
  exists s',
    run viewpoints [(t, Wheel 0); (T, Idle)] s = Some s' /\
    currentViewpoint s' = prev_index viewpoints (currentViewpoint s).
Proof.
  intros D R H.
  destruct (burst_then_quiet viewpoints s t 0 [] t T Tafter D I R)
    as [_ [_ [I2 [s' [Rn [Ci _]]]]]]; [cbn; lia | cbn; lia |].
  split; [exact I2|]. exists s'. split; [exact Rn|]. exact Ci.
Qed.

Lemma zero_delta_goes_to_previous_witness :
  intents App.viewpoints [(0, Wheel 0); (100, Idle); (500, Idle)] mounted
  = [(100, 0%Q)] /\
  exists s',
    run App.viewpoints [(0, Wheel 0); (100, Idle)] mounted = Some s' /\
    currentViewpoint s' = 5.
Proof.
  apply (zero_delta_goes_to_previous App.viewpoints mounted 0 100 500).
  - reflexivity.
  - vm_compute. split; [discriminate | reflexivity].
  - lia.
Defined.

(** C4. The code at an input where it departs from the claim: on the
    component of App.jsx just mounted, a wheel event with [deltaY = 0] at
    0 is not ignored; the timer callback runs at 100 and the index goes
    from 0 to 5, as for a scroll up. *)
Lemma zero_delta_is_not_ignored :
  currentViewpoint mounted = 0 /\
  intents App.viewpoints [(0, Wheel 0); (100, Idle)] mounted = [(100, 0%Q)] /\
  option_map currentViewpoint
    (run App.viewpoints [(0, Wheel 0); (100, Idle)] mounted) = Some 5 /\
  intents App.viewpoints [(0, Wheel 0); (100, Idle)] mounted <> [] /\
  option_map currentViewpoint
    (run App.viewpoints [(0, Wheel 0); (100, Idle)] mounted)
  <> Some (currentViewpoint mounted).
Proof.
  split; [reflexivity|].
  split; [vm_compute; reflexivity|].
  split; [vm_compute; reflexivity|].
  split; vm_compute; discriminate.
Qed.

(** * Further properties of the component *)

(** ** Mounting and the overlay *)

Lemma init_nonempty (vp : Viewpoint) (rest : list Viewpoint) (t : Z) :
  exists s,
    init (vp :: rest) t = Some s /\
    currentViewpoint s = 0 /\ quiet s /\
    index_in_range (vp :: rest) (currentViewpoint s).
Proof.
  unfold init. cbn [at_index Z.ltb Z.compare Z.to_nat nth_error].
  eexists. split; [reflexivity|]. cbn.
  split; [reflexivity|]. split; [repeat split|].
  unfold index_in_range, viewpoints_length. cbn [List.length]. lia.
Qed.

Lemma boot_in_range (viewpoints : list Viewpoint) (t : Z)
    (trace : list (Z * Event)) (s : State) :
  boot viewpoints t trace = Some s ->
  index_in_range viewpoints (currentViewpoint s).
Proof.
  unfold boot. destruct viewpoints as [| vp rest].
  - cbn. discriminate.
  - destruct (init_nonempty vp rest t) as [s0 [E [_ [_ R]]]]. rewrite E.
    destruct (run_in_range (vp :: rest) trace s0 R) as [s' [E' R']].
    rewrite E'. intros H. injection H as <-. exact R'.
Qed.

(** X1. Mounting on an empty catalog throws (reading [.position] of
    [viewpoints[0]]), so nothing runs afterwards; on any other catalog
    mounting succeeds and no sequence of wheel events, frames, Apply
    clicks and idle time ever throws. *)
Theorem mount_throws_only_on_empty_catalog :
  (forall t trace, init [] t = None /\ boot [] t trace = None) /\
  (forall viewpoints t trace,
     viewpoints <> [] ->
     exists s, boot viewpoints t trace = Some s).
Proof.
  split.
  - intros t trace. split; reflexivity.
  - intros viewpoints t trace H. destruct viewpoints as [| vp rest];
      [contradiction|].
    unfold boot. destruct (init_nonempty vp rest t) as [s0 [E [_ [_ R]]]].
    rewrite E.
    destruct (run_in_range (vp :: rest) trace s0 R) as [s' [E' _]].
    exists s'. exact E'.
Qed.

Lemma mount_throws_only_on_empty_catalog_witness :
  exists s,
    boot App.viewpoints 0
      [(0, Wheel 1); (50, ApplyPosition (v3 1 2 3) (v3 0 0 0));
       (120, AnimationFrame); (5000, Wheel (-1)); (6000, Idle)] = Some s.
Proof.
  apply (proj2 mount_throws_only_on_empty_catalog App.viewpoints 0).
  discriminate.
Defined.

(** X2. Whatever has happened since mounting, the overlay shows a
    counter between 1 and the number of viewpoints and the name of an
    entry of the catalog: [viewpoints[currentViewpoint]] is never
    [undefined]. *)
Theorem overlay_names_a_viewpoint (viewpoints : list Viewpoint) (t : Z)
    (trace : list (Z * Event)) (s : State) :
  boot viewpoints t trace = Some s ->
  1 <= fst (viewpoint_counter viewpoints s)
    <= snd (viewpoint_counter viewpoints s) /\
  exists vp,
    In vp viewpoints /\
    at_index viewpoints (currentViewpoint s) = Some vp /\
    viewpoint_name viewpoints s = Some (name vp).
Proof.
  intros B. pose proof (boot_in_range viewpoints t trace s B) as R.
  split.
  - unfold viewpoint_counter, index_in_range in *. cbn [fst snd]. lia.
  - destruct (at_index_in_range viewpoints _ R) as [vp E].
    exists vp. split; [|split; [exact E|]].
    + unfold at_index in E.
      destruct (currentViewpoint s <? 0); [discriminate|].
      apply nth_error_In in E. exact E.
    + unfold viewpoint_name. rewrite E. reflexivity.
Qed.

Lemma overlay_names_a_viewpoint_witness :
  exists s,
    boot App.viewpoints 0 [(0, Wheel (-1)); (100, Idle)] = Some s /\
    viewpoint_counter App.viewpoints s = (6, 6) /\
    viewpoint_name App.viewpoints s = Some "Side Angle"%string.
Proof.
  eexists. split; [vm_compute; reflexivity|].
  match goal with |- viewpoint_counter _ ?s0 = _ /\ _ =>
    pose proof (overlay_names_a_viewpoint App.viewpoints 0
                  [(0, Wheel (-1)); (100, Idle)] s0) as H end.
  destruct H as [_ [vp [_ [E N]]]]; [vm_compute; reflexivity|].
  split; [reflexivity|]. rewrite N.
  vm_compute in E. injection E as <-. reflexivity.
Defined.

(** ** Walking round the catalog *)

(** X3. On every index of the catalog the backward computation undoes
    the forward one: [((i + 1) % length - 1 + length) % length = i]. *)
Theorem prev_index_next_index (viewpoints : list Viewpoint) (i : Z) :
  index_in_range viewpoints i ->
  prev_index viewpoints (next_index viewpoints i) = i.
Proof.
  intros H.
  rewrite (prev_index_value viewpoints _ (next_index_in_range viewpoints i H)).
  rewrite (next_index_value viewpoints i H).
  unfold index_in_range in H.
  destruct (Z.ltb_spec (i + 1) (viewpoints_length viewpoints)) as [L | L].
  - destruct (Z.ltb_spec 0 (i + 1)); lia.
  - cbn. lia.
Qed.

Lemma prev_index_next_index_witness :
  prev_index App.viewpoints (next_index App.viewpoints 5) = 5.
Proof.
  apply (prev_index_next_index App.viewpoints 5). vm_compute.
  split; [discriminate | reflexivity].
Defined.

Lemma iter_next_index (viewpoints : list Viewpoint) (k : nat) (i : Z) :
  index_in_range viewpoints i ->
  Nat.iter k (next_index viewpoints) i
  = (i + Z.of_nat k) mod viewpoints_length viewpoints.
Proof.
  intros H. induction k as [| k IH].
  - unfold index_in_range in H. cbn [Nat.iter nat_rect Z.of_nat].
    rewrite Z.add_0_r, Z.mod_small by lia. reflexivity.
  - rewrite Nat.iter_succ, IH. unfold next_index.
    unfold index_in_range in H.
    rewrite Z.rem_mod_nonneg.
    + rewrite Zplus_mod_idemp_l. f_equal. lia.
    + pose proof (Z.mod_pos_bound (i + Z.of_nat k)
                    (viewpoints_length viewpoints)). lia.
    + lia.
Qed.

Lemma iter_prev_index (viewpoints : list Viewpoint) (k : nat) (i : Z) :
  index_in_range viewpoints i ->
  Nat.iter k (prev_index viewpoints) i
  = (i - Z.of_nat k) mod viewpoints_length viewpoints.
Proof.
  intros H. induction k as [| k IH].
  - unfold index_in_range in H. cbn [Nat.iter nat_rect Z.of_nat].
    rewrite Z.sub_0_r, Z.mod_small by lia. reflexivity.
  - rewrite Nat.iter_succ, IH. unfold prev_index.
    unfold index_in_range in H.
    pose proof (Z.mod_pos_bound (i - Z.of_nat k)
                  (viewpoints_length viewpoints)) as B.
    rewrite Z.rem_mod_nonneg by lia.
    rewrite <- Z.add_sub_swap, <- Z.add_sub_assoc.
    rewrite Zplus_mod_idemp_l.
    rewrite <- (Z.mod_add _ (-1) (viewpoints_length viewpoints)) by lia.
    f_equal. lia.
Qed.

(** X4. From an index of the catalog, [k] forward computations give
    [(i + k) mod length] and [k] backward ones [(i - k) mod length]; as
    many of either as there are viewpoints lead back to [i]. *)
Theorem index_walks_round (viewpoints : list Viewpoint) (k : nat) (i : Z) :
  index_in_range viewpoints i ->
  Nat.iter k (next_index viewpoints) i
  = (i + Z.of_nat k) mod viewpoints_length viewpoints /\
  Nat.iter k (prev_index viewpoints) i
  = (i - Z.of_nat k) mod viewpoints_length viewpoints /\
  Nat.iter (List.length viewpoints) (next_index viewpoints) i = i /\
  Nat.iter (List.length viewpoints) (prev_index viewpoints) i = i.
Proof.
  intros H.
  split; [apply iter_next_index, H|].
  split; [apply iter_prev_index, H|].
  rewrite (iter_next_index viewpoints _ i H),
    (iter_prev_index viewpoints _ i H).
  unfold index_in_range, viewpoints_length in *.
  split.
  - rewrite <- (Z.mul_1_l (Z.of_nat (List.length viewpoints))) at 1.
    rewrite Z.mod_add by lia. apply Z.mod_small. lia.
  - replace (i - Z.of_nat (List.length viewpoints))
      with (i + (-1) * Z.of_nat (List.length viewpoints)) by lia.
    rewrite Z.mod_add by lia. apply Z.mod_small. lia.
Qed.

Lemma index_walks_round_witness :
  Nat.iter 8 (next_index App.viewpoints) 1 = 3 /\
  Nat.iter 8 (prev_index App.viewpoints) 1 = 5 /\
  Nat.iter 6 (next_index App.viewpoints) 1 = 1.
Proof.
  destruct (index_walks_round App.viewpoints 8 1) as [H1 [H2 [H3 _]]].
  - vm_compute. split; [discriminate | reflexivity].
  - split; [exact H1|]. split; [exact H2 | exact H3].
Defined.

(** ** The path of a transition *)

Lemma ease_range (p : Q) :
  (0 <= p)%Q -> (p <= 1)%Q -> (0 <= ease p)%Q /\ (ease p <= 1)%Q.
Proof.
  intros H0 H1.
  pose proof (ease_0 0 (Qeq_refl 0)) as Z0.
  pose proof (ease_1 1 (Qeq_refl 1)) as Z1.
  pose proof (ease_monotone 0 p (Qle_refl 0) H0 H1) as M0.
  pose proof (ease_monotone p 1 H0 H1 (Qle_refl 1)) as M1.
  split; lra.
Qed.

Lemma inject_Z_nonneg (n : Z) : 0 <= n -> (0 <= inject_Z n)%Q.
Proof. intros H. unfold Qle. cbn. lia. Qed.

Lemma progress_nonneg (a : Animation) (t : Z) :
  (0 < duration a)%Q -> startTime a <= t -> (0 <= progress a t)%Q.
Proof.
  intros Hd Ht. unfold progress. apply Q.min_glb; [|discriminate].
  apply Qle_shift_div_l; [exact Hd|].
  assert (H : (0 <= inject_Z (t - startTime a))%Q)
    by (apply inject_Z_nonneg; lia).
  lra.
Qed.

Lemma progress_monotone (a : Animation) (t1 t2 : Z) :
  (0 < duration a)%Q -> t1 <= t2 -> (progress a t1 <= progress a t2)%Q.
Proof.
  intros Hd Ht. unfold progress. apply Q.min_le_compat_r.
  unfold Qdiv. apply Qmult_le_compat_r.
  - rewrite <- Zle_Qle. lia.
  - apply Qinv_le_0_compat, Qlt_le_weak, Hd.
Qed.

Lemma eased_progress (a : Animation) (t1 t2 : Z) :
  (0 < duration a)%Q -> startTime a <= t1 -> t1 <= t2 ->
  (0 <= ease (progress a t1))%Q /\
  (ease (progress a t1) <= ease (progress a t2))%Q /\
  (ease (progress a t2) <= 1)%Q.
Proof.
  intros Hd H1 H2.
  pose proof (progress_nonneg a t1 Hd H1) as P1.
  pose proof (progress_monotone a t1 t2 Hd H2) as P12.
  pose proof (progress_le_1 a t2) as P2.
  assert (P1' : (progress a t1 <= 1)%Q) by lra.
  split; [apply (ease_range _ P1 P1')|].
  split; [apply ease_monotone; assumption|].
  apply ease_range; lra.
Qed.

(** X5. No extrapolation: at a tick at or after its start time, the
    progress of a transition of positive duration and the eased value it
    hands to [lerpVectors] both lie between 0 and 1. *)
Theorem eased_value_in_unit_interval (a : Animation) (t : Z) :
  (0 < duration a)%Q -> startTime a <= t ->
  (0 <= progress a t)%Q /\ (progress a t <= 1)%Q /\
  (0 <= ease (progress a t))%Q /\ (ease (progress a t) <= 1)%Q.
Proof.
  intros Hd Ht.
  destruct (eased_progress a t t Hd Ht (Z.le_refl _)) as [E0 [_ E1]].
  split; [apply progress_nonneg; assumption|].
  split; [apply progress_le_1|]. split; assumption.
Qed.

Lemma eased_value_in_unit_interval_witness :
  (0 <= ease (progress
                (mkAnimation (v3 59 (-8) (-9)) (v3 59 4 (-40)) 2000
                   (v3 52 (-7) 5) (v3 43 (-3) 16) 0) 700))%Q /\
  (ease (progress
           (mkAnimation (v3 59 (-8) (-9)) (v3 59 4 (-40)) 2000
              (v3 52 (-7) 5) (v3 43 (-3) 16) 0) 700) <= 1)%Q.
Proof.
  destruct (eased_value_in_unit_interval
              (mkAnimation (v3 59 (-8) (-9)) (v3 59 4 (-40)) 2000
                 (v3 52 (-7) 5) (v3 43 (-3) 16) 0) 700)
    as [_ [_ [E0 E1]]].
  - reflexivity.
  - cbn. lia.
  - split; [exact E0 | exact E1].
Defined.

(** X6. No going back: of two ticks of one transition of positive
    duration, neither before its start time, the later one has at least
    the progress and at least the eased value of the earlier one. *)
Theorem eased_value_never_decreases (a : Animation) (t1 t2 : Z) :
  (0 < duration a)%Q -> startTime a <= t1 -> t1 <= t2 ->
  (progress a t1 <= progress a t2)%Q /\
  (ease (progress a t1) <= ease (progress a t2))%Q.
Proof.
  intros Hd H1 H2.
  destruct (eased_progress a t1 t2 Hd H1 H2) as [_ [E12 _]].
  split; [apply progress_monotone; assumption | exact E12].
Qed.

Lemma eased_value_never_decreases_witness :
  (ease (progress
           (mkAnimation (v3 59 (-8) (-9)) (v3 59 4 (-40)) 2000
              (v3 52 (-7) 5) (v3 43 (-3) 16) 0) 700)
   <= ease (progress
              (mkAnimation (v3 59 (-8) (-9)) (v3 59 4 (-40)) 2000
                 (v3 52 (-7) 5) (v3 43 (-3) 16) 0) 1300))%Q.
Proof.
  apply (eased_value_never_decreases
           (mkAnimation (v3 59 (-8) (-9)) (v3 59 4 (-40)) 2000
              (v3 52 (-7) 5) (v3 43 (-3) 16) 0) 700 1300).
  - reflexivity.
  - cbn. lia.
  - lia.
Defined.

(** ** A transition from its start to its end *)

(** A frame with one closure registered whose [progress] is below 1. *)
Lemma animationFrame_running (a : Animation) (s : State) :
  animationFrames s = [a] -> (progress a (now s) < 1)%Q ->
  animationFrame s =
  requestAnimationFrame a
    (set_controls_target
       (THREE.lerpVectors (startLookAt a) (targetLookAt a)
          (ease (progress a (now s))))
       (set_camera_position
          (THREE.lerpVectors (startPosition a) (targetPosition a)
             (ease (progress a (now s)))) (set_animationFrames [] s))).
Proof.
  intros F P. unfold animationFrame. rewrite F. cbn [fold_left].
  exact (animate_running a (set_animationFrames [] s) P).
Qed.

(** A frame with one closure registered whose [progress] has reached 1. *)
Lemma animationFrame_finished (a : Animation) (s : State) :
  animationFrames s = [a] -> (progress a (now s) == 1)%Q ->
  animationFrame s =
  set_isEditingRef false
    (set_isAnimating false
       (set_controls_target
          (THREE.lerpVectors (startLookAt a) (targetLookAt a)
             (ease (progress a (now s))))
          (set_camera_position
             (THREE.lerpVectors (startPosition a) (targetPosition a)
                (ease (progress a (now s)))) (set_animationFrames [] s)))).
Proof.
  intros F P. unfold animationFrame. rewrite F. cbn [fold_left].
  exact (animate_finished a (set_animationFrames [] s) P).
Qed.

(** X8. Every transition of the mounted component lasts 2000 ms: with a
    transition active there is exactly one closure registered, its
    duration is 2000, a frame less than 2000 ms after its start time
    keeps it registered and the transition active, and a frame 2000 ms or
    more after it is the last tick: its eased value is 1, both flags are
    cleared and nothing is registered. *)
Theorem transition_lasts_2000ms (viewpoints : list Viewpoint) (t0 : Z)
    (trace : list (Z * Event)) (s : State) :
  boot viewpoints t0 trace = Some s ->
  isAnimating s = true ->
  exists a,
    animationFrames s = [a] /\ duration a = 2000%Q /\
    (forall t,
       t < startTime a + 2000 ->
       (progress a t < 1)%Q /\
       isAnimating (animationFrame (set_now t s)) = true /\
       animationFrames (animationFrame (set_now t s)) = [a]) /\
    (forall t,
       startTime a + 2000 <= t ->
       (ease (progress a t) == 1)%Q /\
       isAnimating (animationFrame (set_now t s)) = false /\
       isEditingRef (animationFrame (set_now t s)) = false /\
       animationFrames (animationFrame (set_now t s)) = []).
Proof.
  intros B A.
  pose proof (boot_single_flight viewpoints t0 trace s B) as I.
  unfold single_flight in I. rewrite A in I. destruct I as [a [F D]].
  exists a. split; [exact F|]. split; [exact D|].
  assert (Hd : (0 < duration a)%Q) by (rewrite D; reflexivity).
  split.
  - intros t Ht.
    assert (P : (progress a (now (set_now t s)) < 1)%Q).
    { apply progress_before_end; [exact Hd|]. rewrite D. cbn [now set_now].
      change default_duration with (inject_Z 2000).
      rewrite <- Zlt_Qlt. lia. }
    rewrite (animationFrame_running a (set_now t s) F P). cbn.
    split; [exact P|]. split; [exact A | reflexivity].
  - intros t Ht.
    assert (P : (progress a (now (set_now t s)) == 1)%Q).
    { apply progress_at_end; [exact Hd|]. rewrite D. cbn [now set_now].
      change default_duration with (inject_Z 2000).
      rewrite <- Zle_Qle. lia. }
    rewrite (animationFrame_finished a (set_now t s) F P). cbn.
    split; [apply ease_1, P|]. repeat split.
Qed.

Lemma transition_lasts_2000ms_witness :
  exists a,
    animationFrames in_flight = [a] /\ duration a = 2000%Q /\
    isAnimating (animationFrame (set_now 1999 in_flight)) = true /\
    isAnimating (animationFrame (set_now 2000 in_flight)) = false /\
    animationFrames (animationFrame (set_now 2000 in_flight)) = [].
Proof.
  destruct (transition_lasts_2000ms App.viewpoints 0
              [(0, ApplyPosition (v3 1 2 3) (v3 0 0 0))] in_flight)
    as [a [F [D [R E]]]].
  - reflexivity.
  - reflexivity.
  - exists a. split; [exact F|]. split; [exact D|].
    assert (Fa : [a] = animationFrames in_flight) by (symmetry; exact F).
    injection Fa as ->.
    split; [apply (R 1999); cbn; lia|].
    split; [apply (E 2000); cbn; lia|].
    apply (E 2000). cbn. lia.
Defined.

(** ** The two flags *)

Lemma animate_flags (a : Animation) (s : State) :
  isEditingRef s = isAnimating s ->
  isEditingRef (animate a s) = isAnimating (animate a s).
Proof. intros H. unfold animate. destruct (Qltb _ _); cbn; auto. Qed.

Lemma fold_animate_flags (l : list Animation) (s : State) :
  isEditingRef s = isAnimating s ->
  isEditingRef (fold_left (fun acc a => animate a acc) l s)
  = isAnimating (fold_left (fun acc a => animate a acc) l s).
Proof.
  revert s. induction l as [| a l IH]; intros s H; cbn [fold_left].
  - exact H.
  - apply IH, animate_flags, H.
Qed.

(** An accepted start sets both flags before the first tick; a rejected
    one leaves the state as it is. *)
Lemma start_flags (tp tl : Vector3) (d : Q) (s : State) :
  (isAnimating s = true -> isEditingRef s = true) ->
  isEditingRef (animateToViewpoint tp tl d s)
  = isAnimating (animateToViewpoint tp tl d s).
Proof.
  intros H. unfold animateToViewpoint. destruct (isAnimating s) eqn:A.
  - rewrite A. apply H. reflexivity.
  - apply animate_flags. reflexivity.
Qed.

Lemma handle_flags (e : Event) (s : State) :
  isEditingRef s = isAnimating s ->
  isEditingRef (handle e s) = isAnimating (handle e s).
Proof.
  intros H. destruct e as [dy | | p l |]; cbn [handle].
  - exact H.
  - unfold animationFrame. apply fold_animate_flags. exact H.
  - unfold handleCustomPosition, setCustomViewpoint.
    apply start_flags. reflexivity.
  - exact H.
Qed.

Lemma scroll_callback_flags (viewpoints : list Viewpoint) (dy : Q)
    (s s' : State) :
  isEditingRef s = isAnimating s ->
  scroll_callback viewpoints dy s = Some s' ->
  isEditingRef s' = isAnimating s'.
Proof.
  intros H. unfold scroll_callback, setViewpoint.
  destruct (at_index viewpoints _) as [vp |]; [|discriminate].
  intros E. injection E as <-. cbn [isEditingRef isAnimating set_currentViewpoint].
  apply start_flags. intros A. rewrite H. exact A.
Qed.

Lemma step_flags (viewpoints : list Viewpoint) (te : Z * Event)
    (s s' : State) :
  isEditingRef s = isAnimating s -> step viewpoints te s = Some s' ->
  isEditingRef s' = isAnimating s'.
Proof.
  intros H. unfold step, run_timers.
  destruct (due (now (set_now (fst te) s)) (set_now (fst te) s)) as [dy |].
  - destruct (scroll_callback viewpoints dy _) as [s1 |] eqn:C;
      [|discriminate].
    intros E. injection E as <-. apply handle_flags.
    exact (scroll_callback_flags viewpoints dy
             (set_scrollTimeout None (set_now (fst te) s)) s1 H C).
  - intros E. injection E as <-. apply handle_flags. exact H.
Qed.

Lemma run_flags (viewpoints : list Viewpoint) (trace : list (Z * Event))
    (s s' : State) :
  isEditingRef s = isAnimating s -> run viewpoints trace s = Some s' ->
  isEditingRef s' = isAnimating s'.
Proof.
  revert s. induction trace as [| te trace IH]; intros s H; cbn [run].
  - intros E. injection E as <-. exact H.
  - destruct (step viewpoints te s) as [s1 |] eqn:S; [|discriminate].
    apply IH. apply (step_flags viewpoints te s s1); assumption.
Qed.

Lemma boot_flags (viewpoints : list Viewpoint) (t : Z)
    (trace : list (Z * Event)) (s : State) :
  boot viewpoints t trace = Some s -> isEditingRef s = isAnimating s.
Proof.
  unfold boot, init.
  destruct (at_index viewpoints 0) as [initial |]; [|discriminate].
  apply run_flags. reflexivity.
Qed.

(** X9. Whatever has happened since mounting, [isEditingRef.current] and
    [isAnimating] have the same value: the ref is true exactly while a
    transition is active. *)
Theorem isEditingRef_mirrors_isAnimating (viewpoints : list Viewpoint)
    (t : Z) (trace : list (Z * Event)) (s : State) :
  boot viewpoints t trace = Some s -> isEditingRef s = isAnimating s.
Proof. exact (boot_flags viewpoints t trace s). Qed.

Lemma isEditingRef_mirrors_isAnimating_witness :
  exists s,
    boot App.viewpoints 0
      [(0, ApplyPosition (v3 1 2 3) (v3 0 0 0)); (900, AnimationFrame);
       (950, ApplyPosition (v3 4 5 6) (v3 0 0 0)); (2000, AnimationFrame)]
    = Some s /\
    isEditingRef s = false /\ isAnimating s = false.
Proof.
  eexists. split; [vm_compute; reflexivity|].
  match goal with |- isEditingRef ?s0 = _ /\ _ =>
    pose proof (isEditingRef_mirrors_isAnimating App.viewpoints 0
      [(0, ApplyPosition (v3 1 2 3) (v3 0 0 0)); (900, AnimationFrame);
       (950, ApplyPosition (v3 4 5 6) (v3 0 0 0)); (2000, AnimationFrame)]
      s0) as H end.
  split; [rewrite H; [reflexivity | vm_compute; reflexivity] | reflexivity].
Defined.

(** X10. A click on Apply while a transition is active changes nothing
    at all in the mounted component: the pose entered is dropped, and the
    ref it sets is already true. Every later run is the one without the
    click. *)
Theorem apply_during_transition_is_dropped (viewpoints : list Viewpoint)
    (t : Z) (trace : list (Z * Event)) (s : State)
    (customPosition customLookAt : Vector3) :
  boot viewpoints t trace = Some s ->
  isAnimating s = true ->
  handleCustomPosition customPosition customLookAt s = s /\
  (forall later,
     run viewpoints later (handleCustomPosition customPosition customLookAt s)
     = run viewpoints later s).
Proof.
  intros B A.
  assert (E : handleCustomPosition customPosition customLookAt s = s).
  { pose proof (boot_flags viewpoints t trace s B) as F. rewrite A in F.
    unfold handleCustomPosition, setCustomViewpoint, animateToViewpoint.
    cbn [isAnimating set_isEditingRef]. rewrite A.
    destruct s. cbn in *. rewrite F. reflexivity. }
  rewrite E. split; reflexivity.
Qed.

Lemma apply_during_transition_is_dropped_witness :
  handleCustomPosition (v3 4 5 6) (v3 7 8 9) in_flight = in_flight.
Proof.
  apply (apply_during_transition_is_dropped App.viewpoints 0
           [(0, ApplyPosition (v3 1 2 3) (v3 0 0 0))] in_flight
           (v3 4 5 6) (v3 7 8 9)).
  - reflexivity.
  - reflexivity.
Defined.

(** ** Navigation that is accepted *)

(** The timer callback on a component with no transition active. *)
Lemma scroll_callback_accepted (viewpoints : list Viewpoint) (dy : Q)
    (s : State) :
  isAnimating s = false ->
  index_in_range viewpoints (currentViewpoint s) ->
  exists vp,
    at_index viewpoints (next_viewpoint viewpoints dy (currentViewpoint s))
    = Some vp /\
    scroll_callback viewpoints dy s
    = Some (set_currentViewpoint
              (next_viewpoint viewpoints dy (currentViewpoint s))
              (animateToViewpoint (position vp) (lookAt vp)
                 default_duration s)) /\
    isAnimating (animateToViewpoint (position vp) (lookAt vp)
                   default_duration s) = true /\
    animationFrames (animateToViewpoint (position vp) (lookAt vp)
                       default_duration s)
    = animationFrames s
        ++ [mkAnimation (position vp) (lookAt vp) default_duration
              (camera_position s) (controls_target s) (now s)].
Proof.
  intros A R. unfold scroll_callback, setViewpoint.
  pose proof (next_viewpoint_in_range viewpoints dy _ R) as Rn.
  destruct (at_index_in_range viewpoints _ Rn) as [vp E]. rewrite E.
  exists vp. rewrite !Vector3_eta.
  destruct (animateToViewpoint_accepted (position vp) (lookAt vp)
              default_duration s A) as [H1 [H2 _]]; [reflexivity|].
  repeat split; assumption.
Qed.

(** X11. The timer callback on a mounted component with no transition
    active starts one towards the catalog entry of the index it stores:
    the closure registered has that entry's position and look-at as its
    target, the current camera pose as its start, the current clock
    reading as its start time and 2000 as its duration. *)
Theorem accepted_navigation_targets_new_index
    (viewpoints : list Viewpoint) (dy : Q) (s : State) :
  isAnimating s = false ->
  index_in_range viewpoints (currentViewpoint s) ->
  exists s' vp,
    scroll_callback viewpoints dy s = Some s' /\
    at_index viewpoints (currentViewpoint s') = Some vp /\
    isAnimating s' = true /\
    animationFrames s'
    = animationFrames s
        ++ [ {| targetPosition := position vp;
                targetLookAt := lookAt vp;
                duration := 2000;
                startPosition := camera_position s;
                startLookAt := controls_target s;
                startTime := now s |} ].
Proof.
  intros A R.
  destruct (scroll_callback_accepted viewpoints dy s A R)
    as [vp [E [C [H1 H2]]]].
  eexists. exists vp. split; [exact C|]. cbn.
  split; [exact E|]. split; [exact H1 | exact H2].
Qed.

Lemma accepted_navigation_targets_new_index_witness :
  exists s',
    scroll_callback App.viewpoints (-120) mounted = Some s' /\
    currentViewpoint s' = 5 /\
    map targetPosition (animationFrames s') = [v3 (-15) 12 0] /\
    map targetLookAt (animationFrames s') = [v3 0 5 0].
Proof.
  destruct (accepted_navigation_targets_new_index App.viewpoints (-120)
              mounted) as [s' [vp [C [E [_ F]]]]].
  - reflexivity.
  - vm_compute. split; [discriminate | reflexivity].
  - exists s'. split; [exact C|].
    assert (I : currentViewpoint s' = 5).
    { vm_compute in C. injection C as <-. reflexivity. }
    split; [exact I|]. rewrite I in E. vm_compute in E.
    injection E as <-. rewrite F. split; reflexivity.
Defined.

(** A wheel event and its timer on a quiet component: the navigation is
    accepted. *)
Lemma request_from_quiet (viewpoints : list Viewpoint) (t : Z) (dy : Q)
    (s : State) :
  quiet s -> index_in_range viewpoints (currentViewpoint s) ->
  exists s1 vp,
    run viewpoints [(t, Wheel dy); (t + 100, Idle)] s = Some s1 /\
    currentViewpoint s1
    = next_viewpoint viewpoints dy (currentViewpoint s) /\
    at_index viewpoints (currentViewpoint s1) = Some vp /\
    isAnimating s1 = true /\
    scrollTimeout s1 = None /\
    animationFrames s1
    = [mkAnimation (position vp) (lookAt vp) default_duration
         (camera_position s) (controls_target s) (t + 100)].
Proof.
  intros [A [F T]] R. cbn [run].
  rewrite (step_not_due viewpoints (t, Wheel dy) s)
    by (unfold due; cbn; rewrite T; reflexivity).
  cbn [fst snd handle]. fold (armed t dy s).
  set (s1 := set_scrollTimeout None (set_now (t + 100) (armed t dy s))).
  destruct (scroll_callback_accepted viewpoints dy s1 A R)
    as [vp [E [C [H1 H2]]]].
  assert (S2 : step viewpoints (t + 100, Idle) (armed t dy s)
               = scroll_callback viewpoints dy s1).
  { unfold step, run_timers. cbn [fst snd now set_now].
    rewrite (armed_due t (t + 100) dy s) by lia.
    fold s1. destruct (scroll_callback viewpoints dy s1); reflexivity. }
  rewrite S2, C.
  destruct (animateToViewpoint_frame (position vp) (lookAt vp)
              default_duration s1) as [_ [_ T2]].
  eexists. exists vp. split; [reflexivity|].
  cbn [currentViewpoint isAnimating scrollTimeout animationFrames
       set_currentViewpoint].
  split; [reflexivity|]. split; [exact E|]. split; [exact H1|].
  split; [exact T2|].
  rewrite H2. unfold s1. cbn. rewrite F. reflexivity.
Qed.

(** One gesture seen to its end on a quiet component: the index has
    moved and the component is quiet again. *)
Lemma advance_from_quiet (viewpoints : list Viewpoint) (t : Z) (dy : Q)
    (s : State) :
  quiet s -> index_in_range viewpoints (currentViewpoint s) ->
  exists s',
    run viewpoints (advance t dy) s = Some s' /\
    quiet s' /\
    currentViewpoint s'
    = next_viewpoint viewpoints dy (currentViewpoint s).
Proof.
  intros Hq R.
  change (advance t dy)
    with ([(t, Wheel dy); (t + 100, Idle)]
            ++ [(t + 1100, AnimationFrame); (t + 2100, AnimationFrame)]).
  rewrite run_app.
  destruct (request_from_quiet viewpoints t dy s Hq R)
    as [s2 [vp [R2 [I2 [_ [A2 [T2 F2]]]]]]].
  rewrite R2. cbn [run].
  set (a := mkAnimation (position vp) (lookAt vp) default_duration
              (camera_position s) (controls_target s) (t + 100)) in *.
  (* the frame in the middle keeps the transition going *)
  assert (P3 : (progress a (now (set_now (t + 1100) s2)) < 1)%Q).
  { apply progress_before_end; [reflexivity|].
    unfold a. cbn [now set_now startTime duration].
    change default_duration with (inject_Z 2000).
    rewrite <- Zlt_Qlt. lia. }
  rewrite (step_not_due viewpoints (t + 1100, AnimationFrame) s2)
    by (unfold due; cbn [scrollTimeout set_now fst]; rewrite T2;
        reflexivity).
  cbn [fst snd handle].
  rewrite (animationFrame_running a (set_now (t + 1100) s2) F2 P3).
  match goal with |- context [step _ (_, AnimationFrame) ?s0] =>
    set (s3 := s0) end.
  assert (F3 : animationFrames (set_now (t + 2100) s3) = [a])
    by reflexivity.
  assert (T3 : scrollTimeout s3 = None) by exact T2.
  (* the frame at the end is the last tick *)
  assert (P4 : (progress a (now (set_now (t + 2100) s3)) == 1)%Q).
  { apply progress_at_end; [reflexivity|].
    unfold a. cbn [now set_now startTime duration].
    change default_duration with (inject_Z 2000).
    rewrite <- Zle_Qle. lia. }
  rewrite (step_not_due viewpoints (t + 2100, AnimationFrame) s3)
    by (unfold due; cbn [scrollTimeout set_now fst]; rewrite T3;
        reflexivity).
  cbn [fst snd handle].
  rewrite (animationFrame_finished a (set_now (t + 2100) s3) F3 P4).
  eexists. split; [reflexivity|]. cbn.
  split; [repeat split; exact T2 | exact I2].
Qed.

Lemma gestures_from_quiet (viewpoints : list Viewpoint) (l : list (Z * Q))
    (s : State) :
  quiet s -> index_in_range viewpoints (currentViewpoint s) ->
  exists s',
    run viewpoints (gestures l) s = Some s' /\
    quiet s' /\
    index_in_range viewpoints (currentViewpoint s') /\
    currentViewpoint s' = index_after viewpoints l (currentViewpoint s).
Proof.
  revert s. induction l as [| [t dy] l IH]; intros s Hq R.
  - exists s. cbn.
    split; [reflexivity|]. split; [exact Hq|]. split; [exact R | reflexivity].
  - change (gestures ((t, dy) :: l)) with (advance t dy ++ gestures l).
    rewrite run_app.
    destruct (advance_from_quiet viewpoints t dy s Hq R)
      as [s1 [R1 [Q1 I1]]].
    rewrite R1.
    assert (Rn : index_in_range viewpoints (currentViewpoint s1)).
    { rewrite I1. apply next_viewpoint_in_range, R. }
    destruct (IH s1 Q1 Rn) as [s' [R' [Q' [Rn' I']]]].
    exists s'. split; [exact R'|]. split; [exact Q'|].
    split; [exact Rn'|]. rewrite I', I1. reflexivity.
Qed.

(** X12. After any sequence of scroll gestures, each seen to the end of
    its transition, the mounted component is at rest (no transition, no
    closure, no timer) with the index the [deltaY]s of the gestures lead
    to from 0; so the next gesture is accepted, and the one closure its
    timer callback registers has as its target the catalog entry of the
    index it stores. *)
Theorem completed_gestures_leave_component_ready
    (viewpoints : list Viewpoint) (t : Z) (l : list (Z * Q))
    (t' : Z) (dy : Q) :
  viewpoints <> [] ->
  (exists s,
     boot viewpoints t (gestures l) = Some s /\
     quiet s /\
     currentViewpoint s = index_after viewpoints l 0) /\
  (exists s1 vp,
     boot viewpoints t (gestures l ++ [(t', Wheel dy); (t' + 100, Idle)])
     = Some s1 /\
     currentViewpoint s1
     = next_viewpoint viewpoints dy (index_after viewpoints l 0) /\
     at_index viewpoints (currentViewpoint s1) = Some vp /\
     isAnimating s1 = true /\
     map targetPosition (animationFrames s1) = [position vp] /\
     map targetLookAt (animationFrames s1) = [lookAt vp] /\
     map startTime (animationFrames s1) = [t' + 100]).
Proof.
  intros H. destruct viewpoints as [| vp0 rest]; [contradiction|].
  unfold boot. destruct (init_nonempty vp0 rest t) as [s0 [E [I [Hq R]]]].
  rewrite E.
  destruct (gestures_from_quiet (vp0 :: rest) l s0 Hq R)
    as [s [Rn [Qn [Rs In]]]].
  rewrite I in In. split.
  - exists s. split; [exact Rn|]. split; [exact Qn | exact In].
  - rewrite run_app, Rn.
    destruct (request_from_quiet (vp0 :: rest) t' dy s Qn Rs)
      as [s1 [vp [R1 [I1 [E1 [A1 [_ F1]]]]]]].
    exists s1, vp. split; [exact R1|]. rewrite In in I1.
    split; [exact I1|]. split; [exact E1|]. split; [exact A1|].
    rewrite F1. repeat split.
Qed.

Lemma completed_gestures_leave_component_ready_witness :
  exists s1,
    boot App.viewpoints 0
      (gestures [(0, 1%Q); (3000, 1%Q); (7000, (-5)%Q)]
         ++ [(10000, Wheel 1); (10100, Idle)]) = Some s1 /\
    currentViewpoint s1 = 2 /\
    isAnimating s1 = true /\
    map targetPosition (animationFrames s1) = [v3 (-10) 2 5] /\
    map targetLookAt (animationFrames s1) = [v3 0 2 0].
Proof.
  destruct (completed_gestures_leave_component_ready App.viewpoints 0
              [(0, 1%Q); (3000, 1%Q); (7000, (-5)%Q)] 10000 1)
    as [_ [s1 [vp [B [I [E [A [Hp [Hl _]]]]]]]]].
  - discriminate.
  - exists s1. split; [exact B|].
    assert (I2 : currentViewpoint s1 = 2) by (rewrite I; reflexivity).
    split; [exact I2|]. split; [exact A|].
    rewrite I2 in E. vm_compute in E. injection E as <-.
    split; [exact Hp | exact Hl].
Defined.

(** ** The shape of the easing *)

(** X13. Slow start, fast finish: in the first half of a transition the
    eased value is at most the linear one, in the second half at least
    the linear one. *)
Theorem ease_lags_then_leads (t : Q) :
  (0 <= t)%Q -> (t <= 1)%Q ->
  ((t <= 1 # 2)%Q -> (ease t <= t)%Q) /\
  ((1 # 2 <= t)%Q -> (t <= ease t)%Q).
Proof.
  intros H0 H1. split.
  - intros Hh. destruct (Qlt_le_dec t (1 # 2)) as [L | L].
    + rewrite (ease_low t L).
      assert (A : (0 <= t * (1 - 2 * t))%Q)
        by (apply Qmult_le_0_compat; lra).
      lra.
    + assert (E : (t == 1 # 2)%Q) by lra.
      rewrite (ease_high t L), E. discriminate.
  - intros Hh. rewrite (ease_high t Hh).
    assert (A : (0 <= (1 - t) * (1 - t))%Q)
      by (apply Qmult_le_0_compat; lra).
    assert (B : ((1 - t) * (1 - t) <= (1 # 2) * (1 # 2))%Q)
      by (apply square_monotone; lra).
    assert (C : (0 <= (1 - t) * (1 - 4 * ((1 - t) * (1 - t))))%Q)
      by (apply Qmult_le_0_compat; lra).
    lra.
Qed.

Lemma ease_lags_then_leads_witness :
  (ease (1 # 4) <= 1 # 4)%Q /\ (3 # 4 <= ease (3 # 4))%Q.
Proof.
  split.
  - apply (ease_lags_then_leads (1 # 4)); discriminate.
  - apply (ease_lags_then_leads (3 # 4)); discriminate.
Defined.

(** X14. The two halves are not mirror images: the first is the
    quadratic [2t^2], the second the cubic [1 - 4(1-t)^3], so at equal
    distances from the two ends the eased values add up to more than 1,
    by [2t^2(1 - 2t)]. *)
Theorem ease_halves_differ (t : Q) :
  (0 < t)%Q -> (t < 1 # 2)%Q ->
  (ease t == 2 * t * t)%Q /\
  (ease (1 - t) == 1 - 4 * t * t * t)%Q /\
  (ease t + ease (1 - t) == 1 + 2 * t * t * (1 - 2 * t))%Q /\
  (1 < ease t + ease (1 - t))%Q.
Proof.
  intros H0 H1.
  assert (L : (1 # 2 <= 1 - t)%Q) by lra.
  pose proof (ease_low t H1) as E1.
  pose proof (ease_high (1 - t) L) as E2.
  assert (E2' : (ease (1 - t) == 1 - 4 * t * t * t)%Q)
    by (rewrite E2; ring).
  assert (P : (0 < t * t * (1 - 2 * t))%Q).
  { apply Qmult_lt_0_compat; [apply Qmult_lt_0_compat; exact H0 | lra]. }
  split; [exact E1|]. split; [exact E2'|].
  split; [rewrite E1, E2'; ring|].
  rewrite E1, E2'. lra.
Qed.

Lemma ease_halves_differ_witness :
  (ease (1 # 4) == 1 # 8)%Q /\ (ease (3 # 4) == 15 # 16)%Q.
Proof.
  destruct (ease_halves_differ (1 # 4)) as [E1 [E2 _]].
  - reflexivity.
  - reflexivity.
  - split; [rewrite E1; reflexivity|].
    change (3 # 4)%Q with (1 - (1 # 4))%Q at 1.
    rewrite E2. reflexivity.
Defined.

(** ** The form fields of the earlier revision *)





(** ** Navigation that is dropped *)

(** X17. A navigation dropped because a transition is active is never
    made up for: the index moves at once while the one closure registered
    stays the one of the transition in flight, that transition ends at
    the first frame 2000 ms after its start, and as long as only frames
    and idle time follow the component stays at rest, with no transition
    and no closure, while the overlay names the other viewpoint. *)
Theorem dropped_navigation_is_never_replayed
    (viewpoints : list Viewpoint) (t0 : Z) (trace : list (Z * Event))
    (s : State) (dy : Q) (t : Z) (later : list (Z * Event)) :
  boot viewpoints t0 trace = Some s ->
  isAnimating s = true ->
  scrollTimeout s = None ->
  Forall (fun te => snd te = AnimationFrame \/ snd te = Idle) later ->
  exists a s1,
    animationFrames s = [a] /\
    scroll_callback viewpoints dy s = Some s1 /\
    currentViewpoint s1
    = next_viewpoint viewpoints dy (currentViewpoint s) /\
    animationFrames s1 = [a] /\
    (startTime a + 2000 <= t ->
     exists s',
       run viewpoints ((t, AnimationFrame) :: later) s1 = Some s' /\
       quiet s' /\
       currentViewpoint s'
       = next_viewpoint viewpoints dy (currentViewpoint s)).
Proof.
  intros B A T L.
  pose proof (boot_single_flight viewpoints t0 trace s B) as I.
  unfold single_flight in I. rewrite A in I. destruct I as [a [F D]].
  pose proof (boot_in_range viewpoints t0 trace s B) as R.
  exists a. eexists. split; [exact F|].
  split; [apply (scroll_callback_rejected viewpoints dy s R A)|].
  split; [reflexivity|]. split; [exact F|].
  intros Ht.
  set (s1 := set_currentViewpoint
               (next_viewpoint viewpoints dy (currentViewpoint s)) s).
  cbn [run].
  rewrite (step_not_due viewpoints (t, AnimationFrame) s1)
    by (unfold due, s1; cbn; rewrite T; reflexivity).
  cbn [fst snd handle].
  assert (F1 : animationFrames (set_now t s1) = [a]) by exact F.
  assert (P : (progress a (now (set_now t s1)) == 1)%Q).
  { apply progress_at_end; [rewrite D; reflexivity|].
    rewrite D. cbn [now set_now].
    change default_duration with (inject_Z 2000).
    rewrite <- Zle_Qle. lia. }
  rewrite (animationFrame_finished a (set_now t s1) F1 P).
  match goal with |- context [run viewpoints later ?s0] =>
    destruct (quiet_run viewpoints later s0 L T eq_refl)
      as [s' [Rn [H1 [_ [_ [H4 [H5 H6]]]]]]] end.
  exists s'. split; [exact Rn|].
  split; [repeat split; assumption | exact H1].
Qed.

Lemma dropped_navigation_is_never_replayed_witness :
  exists s',
    run App.viewpoints
      [(2000, AnimationFrame); (2016, AnimationFrame); (9000, Idle)]
      (set_currentViewpoint 1 in_flight) = Some s' /\
    quiet s' /\ currentViewpoint s' = 1.
Proof.
  destruct (dropped_navigation_is_never_replayed App.viewpoints 0
              [(0, ApplyPosition (v3 1 2 3) (v3 0 0 0))] in_flight 1 2000
              [(2016, AnimationFrame); (9000, Idle)])
    as [a [s1 [F [C [_ [_ H]]]]]].
  - reflexivity.
  - reflexivity.
  - reflexivity.
  - constructor; [left; reflexivity|].
    constructor; [right; reflexivity|]. constructor.
  - assert (Fa : [a] = animationFrames in_flight) by (symmetry; exact F).
    injection Fa as ->.
    assert (Cs : Some s1 = Some (set_currentViewpoint 1 in_flight))
      by (rewrite <- C; reflexivity).
    injection Cs as ->.
    destruct H as [s' [R [Hq I]]]; [cbn; lia|].
    exists s'. split; [exact R|]. split; [exact Hq | exact I].
Defined.
